(** * Entrustash DAG persistence layer: the file-preparation protocol

    A shallow embedding of

    - [libentrustash/entrustash.h]  (the protocol constants),
    - [libentrustash/io_win32.c]    (the platform wrappers), and
    - [libentrustash/io.c]          ([entrustash_io_prepare]),

    together with the properties of the persistence protocol.

    Conventions of the embedding.

    - [uint64_t] and [size_t] values are [Z] with the wrap-around modulo
      [2^64] written out ([wrap64]): the targets are the 64-bit ones.
      [long int] has 64 bits there or, on Windows, 32 ([data_model],
      [to_long]).
    - A C string is a [string]; its contents stop at the first NUL, or at
      the implicit terminator ([strlen], [char_at]).
    - The file system, the table of open [FILE] objects, [errno] and the
      caller's [FILE*] slot form the [world] that every operation threads
      through.  An [env] says which library calls fail for reasons outside
      the program (permissions, disk full, ...) and fixes the byte order
      of the host. *)

From stdpp Require Import gmap strings list fin_maps.
From Stdlib Require Import ZArith Lia Ascii.
From Stdlib.Strings Require Import Byte.

Open Scope Z_scope.

(** ** Machine integers *)

Definition wrap64 (x : Z) : Z := x mod 2 ^ 64.

(** The 64-bit data models: [long int] has 64 bits (LP64) or 32 (LLP64). *)
Inductive data_model := LP64 | LLP64.

Definition long_bits (m : data_model) : Z :=
  match m with
  | LP64 => 64
  | LLP64 => 32
  end.

(** Conversion of a 64-bit unsigned value to a [long int] of [bits] bits:
    the low bits, read as a two's complement number. *)
Definition to_long (bits : Z) (x : Z) : Z :=
  let y := x mod 2 ^ bits in
  if y <? 2 ^ (bits - 1) then y else y - 2 ^ bits.

(** ** entrustash.h *)

Definition ENTRUSTASH_REVISION : Z := 23.
Definition ENTRUSTASH_DATASET_BYTES_INIT : Z := 1073741824.
Definition ENTRUSTASH_DATASET_BYTES_GROWTH : Z := 8388608.
Definition ENTRUSTASH_CACHE_BYTES_INIT : Z := 1073741824.
Definition ENTRUSTASH_CACHE_BYTES_GROWTH : Z := 131072.
Definition ENTRUSTASH_EPOCH_LENGTH : Z := 30000.
Definition ENTRUSTASH_DAG_MAGIC_NUM_SIZE : Z := 8.
Definition ENTRUSTASH_DAG_MAGIC_NUM : Z := 0xFEE1DEADBADDCAFE.

(** [typedef struct entrustash_h256 { uint8_t b[32]; }] *)
Record entrustash_h256_t := { b : list byte }.

(** ** C strings *)

(** Number of characters before the first NUL. *)
Fixpoint strlen (s : string) : nat :=
  match s with
  | EmptyString => 0%nat
  | String c s' => if Ascii.eqb c zero then 0%nat else S (strlen s')
  end.

(** [s[i]]: past the characters of [s] sits the terminating NUL. *)
Definition char_at (s : string) (i : nat) : ascii :=
  match String.get i s with
  | Some c => c
  | None => zero
  end.

(** The first [n] characters of [s]. *)
Fixpoint str_take (n : nat) (s : string) : string :=
  match n, s with
  | S n', String c s' => String c (str_take n' s')
  | _, _ => EmptyString
  end.

(** The contents of the C string held in [s]. *)
Definition c_str (s : string) : string := str_take (strlen s) s.

(** ** io_win32.c: string helpers *)

(** The count [_TRUNCATE], [(size_t)-1]. *)
Definition _TRUNCATE : Z := 2 ^ 64 - 1.

(** [strncat_s(dest, dest_size, src, count) == 0 ? dest : NULL].
    [strncat_s] appends at most [count] characters of [src] and returns 0
    when they and the terminator fit in [dest_size] bytes.  Otherwise it
    returns an error code, after its invalid-parameter handler if that one
    lets the program go on: with a buffer of no bytes nothing is written;
    with a [dest] that is not terminated inside the buffer [dest] is
    emptied; with the count [_TRUNCATE] what fits is appended; in the
    other cases [dest] is emptied.  The flag is whether
    [entrustash_strncat] returns [dest], the string is the buffer
    afterwards. *)
Definition entrustash_strncat
    (dest : string) (dest_size : Z) (src : string) (count : Z) : bool * string :=
  let n := Z.min count (Z.of_nat (strlen src)) in
  if Z.of_nat (strlen dest) + n + 1 <=? dest_size
  then (true, c_str dest +:+ str_take (Z.to_nat n) src)
  else if dest_size <=? 0 then (false, dest)
  else if dest_size <=? Z.of_nat (strlen dest) then (false, EmptyString)
  else if count =? _TRUNCATE
  then (false,
        c_str dest +:+ str_take (Z.to_nat (dest_size - 1 - Z.of_nat (strlen dest))) src)
  else (false, EmptyString).

(** The test [dirname[dirlen] != '\\' || dirname[dirlen] != '/'] on the
    character [c = dirname[dirlen]]. *)
Definition separator_check (c : ascii) : bool :=
  negb (Ascii.eqb c "\") || negb (Ascii.eqb c "/").

(** The size handed to [malloc]. *)
Definition create_filename_dest_size (dirname : string) (filename_length : Z) : Z :=
  let dirlen := Z.of_nat (strlen dirname) in
  let dest_size := wrap64 (wrap64 (dirlen + filename_length) + 1) in
  if separator_check (char_at dirname (strlen dirname))
  then wrap64 (dest_size + 1)
  else dest_size.

(** [malloc_ok] tells whether [malloc(dest_size)] returns a buffer; the
    result is [None] for [NULL]. *)
Definition entrustash_io_create_filename
    (malloc_ok : bool) (dirname filename : string) (filename_length : Z)
  : option string :=
  let dirlen := Z.of_nat (strlen dirname) in
  let dest_size := create_filename_dest_size dirname filename_length in
  if negb malloc_ok then None
  else
    let name := EmptyString in
    let name := snd (entrustash_strncat name dest_size dirname dirlen) in
    let name :=
      if separator_check (char_at dirname (strlen dirname))
      then snd (entrustash_strncat name dest_size "\" 1)
      else name in
    let name := snd (entrustash_strncat name dest_size filename filename_length) in
    Some name.

(** ** The world of [io.c]

    What the C library and the operating system keep between calls. *)

Inductive byte_order := LittleEndian | BigEndian.

(** Faults of the environment: a flag set to [true] makes the named
    library call fail whatever the state of the file system. *)
Record env := {
  model : data_model;
  host_order : byte_order;
  mkdir_err : bool;     (* [_mkdir] fails for a reason other than [EEXIST] *)
  malloc_err : bool;    (* [malloc] returns [NULL] *)
  open_rb_err : bool;   (* opening in mode ["rb+"] is refused *)
  stat_err : bool;      (* [_fileno] or [_fstat] fails *)
  read_err : bool;      (* [fread] meets a read error *)
  open_wb_err : bool;   (* opening in mode ["wb+"] is refused *)
  seek_err : bool;      (* [fseek] fails *)
  putc_err : bool;      (* [fputc] returns [EOF] *)
  flush_err : bool      (* writing the stream buffer out fails *)
}.

Inductive open_mode := RB_PLUS | WB_PLUS.

(** An open [FILE]: the file it is attached to, its position and the bytes
    written but not yet flushed, oldest first. *)
Record stream := {
  s_path : string;
  s_pos : Z;
  s_buf : list (Z * byte)
}.

(** The library calls [entrustash_io_prepare] makes. *)
Inductive io_call :=
| CallMkdir
| CallFopen (m : open_mode)
| CallFileSize
| CallFread
| CallFseek
| CallFputc
| CallFflush
| CallFclose.

Record world := {
  dirs : gset string;                 (* the directories that exist *)
  files : gmap string (list byte);    (* the regular files and their contents *)
  streams : gmap nat stream;          (* the open [FILE] objects, by handle *)
  errno : Z;
  output_file : option nat;           (* [*output_file]; [None] is [NULL] *)
  calls : list (io_call * bool)       (* the calls made so far, each with
                                         whether it succeeded, oldest first *)
}.

Definition set_dirs (d : gset string) (w : world) : world :=
  {| dirs := d; files := files w; streams := streams w; errno := errno w;
     output_file := output_file w; calls := calls w |}.
Definition set_files (fs : gmap string (list byte)) (w : world) : world :=
  {| dirs := dirs w; files := fs; streams := streams w; errno := errno w;
     output_file := output_file w; calls := calls w |}.
Definition set_streams (ss : gmap nat stream) (w : world) : world :=
  {| dirs := dirs w; files := files w; streams := ss; errno := errno w;
     output_file := output_file w; calls := calls w |}.
Definition set_errno (e : Z) (w : world) : world :=
  {| dirs := dirs w; files := files w; streams := streams w; errno := e;
     output_file := output_file w; calls := calls w |}.
Definition set_output_file (o : option nat) (w : world) : world :=
  {| dirs := dirs w; files := files w; streams := streams w; errno := errno w;
     output_file := o; calls := calls w |}.
Definition log (c : io_call) (ok : bool) (w : world) : world :=
  {| dirs := dirs w; files := files w; streams := streams w; errno := errno w;
     output_file := output_file w; calls := calls w ++ [(c, ok)] |}.

Definition EEXIST : Z := 17.
Definition ENOENT : Z := 2.

(** *** File contents *)

(** Storing byte [x] at offset [pos]; a gap past the end reads as zeros. *)
Definition write_at (c : list byte) (pos : Z) (x : byte) : list byte :=
  let p := Z.to_nat pos in
  if decide (p < length c)%nat then <[p := x]> c
  else c ++ repeat x00 (p - length c) ++ [x].

Definition commit (c : list byte) (buf : list (Z * byte)) : list byte :=
  foldl (fun c px => write_at c (fst px) (snd px)) c buf.

Definition decode_le (bs : list byte) : Z :=
  foldr (fun x acc => Z.of_N (Byte.to_N x) + 256 * acc) 0 bs.

(** The value of a [uint64_t] whose storage holds the bytes [bs]. *)
Definition decode_u64 (o : byte_order) (bs : list byte) : Z :=
  match o with
  | LittleEndian => decode_le bs
  | BigEndian => decode_le (rev bs)
  end.

(** *** The C library *)

(** [_mkdir(dirname)]: the return code, with [errno] set on failure.
    [EEXIST] is the answer when [dirname] names a directory that exists,
    and also when it names a regular file. *)
Definition _mkdir (e : env) (dirname : string) (w : world) : Z * world :=
  if mkdir_err e then (-1, set_errno ENOENT w)
  else if decide (dirname ∈ dirs w) then (-1, set_errno EEXIST w)
  else if decide (is_Some (files w !! dirname)) then (-1, set_errno EEXIST w)
  else (0, set_dirs ({[dirname]} ∪ dirs w) w).

(** [fseek(f, offset, SEEK_SET)]; [true] stands for the return value 0. *)
Definition fseek (e : env) (f : nat) (offset : Z) (w : world) : bool * world :=
  match streams w !! f with
  | Some s =>
      if seek_err e || (offset <? 0) then (false, log CallFseek false w)
      else (true,
            log CallFseek true
              (set_streams
                 (<[f := {| s_path := s_path s; s_pos := offset; s_buf := s_buf s |}]>
                    (streams w)) w))
  | None => (false, log CallFseek false w)
  end.

(** [fputc(x, f)]; [false] stands for [EOF]. *)
Definition fputc (e : env) (x : byte) (f : nat) (w : world) : bool * world :=
  match streams w !! f with
  | Some s =>
      if putc_err e then (false, log CallFputc false w)
      else (true,
            log CallFputc true
              (set_streams
                 (<[f := {| s_path := s_path s; s_pos := s_pos s + 1;
                            s_buf := s_buf s ++ [(s_pos s, x)] |}]>
                    (streams w)) w))
  | None => (false, log CallFputc false w)
  end.

(** Writing the buffer of stream [s] out: [None] when that fails. *)
Definition write_out (e : env) (s : stream) (w : world)
  : option (gmap string (list byte)) :=
  match s_buf s with
  | [] => Some (files w)
  | _ :: _ =>
      if flush_err e then None
      else match files w !! s_path s with
           | Some c => Some (<[s_path s := commit c (s_buf s)]> (files w))
           | None => None
           end
  end.

(** [fflush(f)]; [true] stands for the return value 0.  The buffer is
    empty afterwards: written out, or lost. *)
Definition fflush (e : env) (f : nat) (w : world) : bool * world :=
  match streams w !! f with
  | Some s =>
      let ss := <[f := {| s_path := s_path s; s_pos := s_pos s; s_buf := [] |}]>
                  (streams w) in
      match write_out e s w with
      | Some fs => (true, log CallFflush true (set_streams ss (set_files fs w)))
      | None => (false, log CallFflush false (set_streams ss w))
      end
  | None => (false, log CallFflush false w)
  end.

(** [fclose(f)]: flushes what is left in the buffer and releases the
    handle.  [io.c] ignores its return value. *)
Definition fclose (e : env) (f : nat) (w : world) : world :=
  match streams w !! f with
  | Some s =>
      match write_out e s w with
      | Some fs =>
          log CallFclose true (set_streams (delete f (streams w)) (set_files fs w))
      | None => log CallFclose false (set_streams (delete f (streams w)) w)
      end
  | None => log CallFclose false w
  end.

(** [fread(&magic_num, 8, 1, f)]: the value read when one whole item of 8
    bytes was read, [None] when [fread] returns 0. *)
Definition fread_u64 (e : env) (f : nat) (w : world) : option Z * world :=
  match streams w !! f with
  | Some s =>
      match files w !! s_path s with
      | Some c =>
          let bs := take 8 (drop (Z.to_nat (s_pos s)) c) in
          if read_err e || negb (length bs =? 8)%nat
          then (None, log CallFread false w)
          else (Some (decode_u64 (host_order e) bs),
                log CallFread true
                  (set_streams
                     (<[f := {| s_path := s_path s; s_pos := s_pos s + 8;
                                s_buf := s_buf s |}]> (streams w)) w))
      | None => (None, log CallFread false w)
      end
  | None => (None, log CallFread false w)
  end.

(** ** io_win32.c: the wrappers *)

(** [fopen_s(&f, file_name, mode) == 0 ? f : NULL].  Mode ["rb+"] needs an
    existing file; mode ["wb+"] creates the file or truncates it to length
    zero.  The new stream gets a handle that no open stream has.
    [fopen_s] opens without sharing: while a stream is open on
    [file_name] a further open is refused.  That refusal, like a missing
    directory or missing rights, is among what [open_rb_err] and
    [open_wb_err] stand for; an [env] in which they are [false] is one for
    a state in which no stream is open on [file_name]. *)
Definition entrustash_fopen (e : env) (file_name : string) (mode : open_mode)
    (w : world) : option nat * world :=
  let f := fresh (dom (streams w)) in
  let s := {| s_path := file_name; s_pos := 0; s_buf := [] |} in
  match mode with
  | RB_PLUS =>
      if open_rb_err e then (None, log (CallFopen RB_PLUS) false w)
      else match files w !! file_name with
           | Some _ =>
               (Some f,
                log (CallFopen RB_PLUS) true (set_streams (<[f := s]> (streams w)) w))
           | None => (None, log (CallFopen RB_PLUS) false w)
           end
  | WB_PLUS =>
      if open_wb_err e then (None, log (CallFopen WB_PLUS) false w)
      else (Some f,
            log (CallFopen WB_PLUS) true
              (set_streams (<[f := s]> (streams w))
                 (set_files (<[file_name := []]> (files w)) w)))
  end.

(** [rc != -1 || errno == EEXIST] *)
Definition entrustash_mkdir (e : env) (dirname : string) (w : world) : bool * world :=
  let '(rc, w) := _mkdir e dirname w in
  let ok := negb (rc =? -1) || (errno w =? EEXIST) in
  (ok, log CallMkdir ok w).

(** [*ret_size = st.st_size]: the size as a [size_t], [None] when the
    function returns [false]. *)
Definition entrustash_file_size (e : env) (f : nat) (w : world) : option Z * world :=
  match streams w !! f with
  | Some s =>
      match files w !! s_path s with
      | Some c =>
          if stat_err e then (None, log CallFileSize false w)
          else (Some (wrap64 (Z.of_nat (length c))), log CallFileSize true w)
      | None => (None, log CallFileSize false w)
      end
  | None => (None, log CallFileSize false w)
  end.

(** [static const char dir_suffix[] = "Entrustash\\"] and its [sizeof],
    which counts the terminator. *)
Definition dir_suffix : string := "Entrustash\".
Definition sizeof_dir_suffix : Z := Z.of_nat (String.length dir_suffix) + 1.

(** [entrustash_get_default_dirname(strbuf, buffsize)].  [folder] is what
    [SHGetFolderPathA] does after [strbuf[0] = '\0']: whether it succeeded
    and what it left in [strbuf].  The result is the return value and the
    buffer afterwards. *)
Definition entrustash_get_default_dirname (folder : bool * string) (buffsize : Z)
  : bool * string :=
  let '(succeeded, strbuf) := folder in
  if negb succeeded then (false, strbuf)
  else
    match entrustash_strncat strbuf buffsize "\" 1 with
    | (false, strbuf) => (false, strbuf)
    | (true, strbuf) => entrustash_strncat strbuf buffsize dir_suffix sizeof_dir_suffix
    end.

(** ** io.c *)

(** Modelled from the spec: [enum entrustash_io_rc] is declared in [io.h],
    which is not among the sources.  Its members are the four statuses
    [io.c] returns, the four results of the open contract of the
    persistence layer. *)
Inductive entrustash_io_rc :=
| ENTRUSTASH_IO_FAIL
| ENTRUSTASH_IO_MEMO_SIZE_MISMATCH
| ENTRUSTASH_IO_MEMO_MISMATCH
| ENTRUSTASH_IO_MEMO_MATCH.

(** [found_size - ENTRUSTASH_DAG_MAGIC_NUM_SIZE], in [size_t]. *)
Definition payload_size (found_size : Z) : Z :=
  wrap64 (found_size - ENTRUSTASH_DAG_MAGIC_NUM_SIZE).

(** [(long int)(file_size + ENTRUSTASH_DAG_MAGIC_NUM_SIZE - 1)] *)
Definition last_offset (m : data_model) (file_size : Z) : Z :=
  to_long (long_bits m)
    (wrap64 (wrap64 (file_size + ENTRUSTASH_DAG_MAGIC_NUM_SIZE) - 1)).

(** The label [set_file]: [*output_file = f], then on to [free_memo]. *)
Definition set_file (f : nat) (ret : entrustash_io_rc) (w : world)
  : entrustash_io_rc * world :=
  (ret, set_output_file (Some f) w).

Section Prepare.

(** The inline helper of [io.h] that prints the file name for a revision
    and a seed hash; [io.h] is not among the sources, and nothing below
    depends on what the name looks like. *)
Variable entrustash_io_mutable_name : Z -> entrustash_h256_t -> string.

(** The path [tmpfile] of the DAG file, [None] when it cannot be built. *)
Definition dag_path (e : env) (dirname : string) (seedhash : entrustash_h256_t)
  : option string :=
  let mutable_name := entrustash_io_mutable_name ENTRUSTASH_REVISION seedhash in
  entrustash_io_create_filename (negb (malloc_err e)) dirname mutable_name
    (Z.of_nat (strlen mutable_name)).

(** The part after the comment "file does not exist, will need to be
    created". *)
Definition create_file (e : env) (tmpfile : string) (file_size : Z) (w : world)
  : entrustash_io_rc * world :=
  let ret := ENTRUSTASH_IO_FAIL in
  match entrustash_fopen e tmpfile WB_PLUS w with
  | (None, w) => (ret, w)
  | (Some f, w) =>
      match fseek e f (last_offset (model e) file_size) w with
      | (false, w) => (ret, fclose e f w)
      | (true, w) =>
          match fputc e x0a f w with
          | (false, w) => (ret, fclose e f w)
          | (true, w) =>
              match fflush e f w with
              | (false, w) => (ret, fclose e f w)
              | (true, w) => set_file f ENTRUSTASH_IO_MEMO_MISMATCH w
              end
          end
      end
  end.

Definition entrustash_io_prepare (e : env) (dirname : string)
    (seedhash : entrustash_h256_t) (file_size : Z) (force_create : bool)
    (w : world) : entrustash_io_rc * world :=
  let ret := ENTRUSTASH_IO_FAIL in
  let w := set_errno 0 w in
  match entrustash_mkdir e dirname w with
  | (false, w) => (ret, w)
  | (true, w) =>
      match dag_path e dirname seedhash with
      | None => (ret, w)
      | Some tmpfile =>
          if negb force_create then
            match entrustash_fopen e tmpfile RB_PLUS w with
            | (Some f, w) =>
                match entrustash_file_size e f w with
                | (None, w) => (ret, fclose e f w)
                | (Some found_size, w) =>
                    if negb (file_size =? payload_size found_size)
                    then (ENTRUSTASH_IO_MEMO_SIZE_MISMATCH, fclose e f w)
                    else
                      match fread_u64 e f w with
                      | (None, w) =>
                          (ENTRUSTASH_IO_MEMO_SIZE_MISMATCH, fclose e f w)
                      | (Some magic_num, w) =>
                          if negb (magic_num =? ENTRUSTASH_DAG_MAGIC_NUM)
                          then (ENTRUSTASH_IO_MEMO_SIZE_MISMATCH, fclose e f w)
                          else set_file f ENTRUSTASH_IO_MEMO_MATCH w
                      end
                end
            | (None, w) => create_file e tmpfile file_size w
            end
          else create_file e tmpfile file_size w
      end
  end.

(** The calls made by one invocation, oldest first. *)
Definition prepare_calls (e : env) (dirname : string)
    (seedhash : entrustash_h256_t) (file_size : Z) (force_create : bool)
    (w : world) : list (io_call * bool) :=
  drop (length (calls w))
    (calls (snd (entrustash_io_prepare e dirname seedhash file_size force_create w))).

End Prepare.

(** ** Sample inputs *)

Definition sample_name (revision : Z) (seedhash : entrustash_h256_t) : string :=
  "full-R23-0000000000000000".

Definition zero_seed : entrustash_h256_t := {| b := repeat x00 32 |}.

Definition sample_path : string := "dag\full-R23-0000000000000000".

Definition no_faults : env :=
  {| model := LLP64; host_order := LittleEndian;
     mkdir_err := false; malloc_err := false; open_rb_err := false;
     stat_err := false; read_err := false; open_wb_err := false;
     seek_err := false; putc_err := false; flush_err := false |}.

Definition read_fault : env :=
  {| model := LLP64; host_order := LittleEndian;
     mkdir_err := false; malloc_err := false; open_rb_err := false;
     stat_err := false; read_err := true; open_wb_err := false;
     seek_err := false; putc_err := false; flush_err := false |}.

Definition seek_fault : env :=
  {| model := LLP64; host_order := LittleEndian;
     mkdir_err := false; malloc_err := false; open_rb_err := false;
     stat_err := false; read_err := false; open_wb_err := false;
     seek_err := true; putc_err := false; flush_err := false |}.


Definition open_wb_fault : env :=
  {| model := LLP64; host_order := LittleEndian;
     mkdir_err := false; malloc_err := false; open_rb_err := false;
     stat_err := false; read_err := false; open_wb_err := true;
     seek_err := false; putc_err := false; flush_err := false |}.

(** Nothing on disk, nothing open. *)
Definition empty_world : world :=
  {| dirs := ∅; files := ∅; streams := ∅; errno := 0;
     output_file := None; calls := [] |}.

(** The directory ["dag"] holding one DAG file with contents [c]. *)
Definition world_with (c : list byte) : world :=
  {| dirs := {["dag"%string]}; files := {[sample_path := c]}; streams := ∅;
     errno := 0; output_file := None; calls := [] |}.


(** 0xFEE1DEADBADDCAFE as a little-endian host stores it. *)
Definition magic_bytes : list byte := [xfe; xca; xdd; xba; xad; xde; xe1; xfe].

(** The magic number as a host of byte order [o] stores it. *)
Definition host_magic_bytes (o : byte_order) : list byte :=
  match o with
  | LittleEndian => magic_bytes
  | BigEndian => rev magic_bytes
  end.

(** A well-formed DAG file with a payload of four bytes. *)
Definition good_dag : list byte := magic_bytes ++ [x01; x02; x03; x04].

(** The same file with the first byte of the magic number damaged. *)
Definition bad_magic_dag : list byte :=
  [x00; xca; xdd; xba; xad; xde; xe1; xfe] ++ [x01; x02; x03; x04].

(** A file cut off inside the magic number. *)
Definition short_dag : list byte := [xfe; xca; xdd].

(** ** Arithmetic of the size fields *)

Lemma wrap64_small (x : Z) : 0 <= x < 2 ^ 64 -> wrap64 x = x.
Proof. intros H. unfold wrap64. now apply Z.mod_small. Qed.

(** A file at least as long as the magic number has its payload size
    computed exactly. *)
Lemma payload_size_exact (n : Z) :
  8 <= n < 2 ^ 64 -> payload_size (wrap64 n) = n - 8.
Proof.
  intros H. unfold payload_size, ENTRUSTASH_DAG_MAGIC_NUM_SIZE.
  rewrite (wrap64_small n) by lia. apply wrap64_small. lia.
Qed.

(** A shorter file makes the subtraction wrap. *)
Lemma payload_size_wraps (n : Z) :
  0 <= n < 8 -> payload_size (wrap64 n) = 2 ^ 64 - 8 + n.
Proof.
  intros H. unfold payload_size, ENTRUSTASH_DAG_MAGIC_NUM_SIZE.
  rewrite (wrap64_small n) by lia. unfold wrap64.
  symmetry. apply (Z.mod_unique_pos _ _ (-1)); lia.
Qed.

(** An offset in the range of [long int] survives the conversion. *)
Lemma last_offset_exact (m : data_model) (file_size : Z) :
  0 <= file_size ->
  file_size + ENTRUSTASH_DAG_MAGIC_NUM_SIZE - 1 < 2 ^ (long_bits m - 1) ->
  last_offset m file_size = file_size + 7.
Proof.
  unfold last_offset, to_long, ENTRUSTASH_DAG_MAGIC_NUM_SIZE. intros H0 H1.
  assert (Hbits : (2 ^ (long_bits m - 1) <= 2 ^ 63) /\
                  (2 ^ long_bits m = 2 * 2 ^ (long_bits m - 1)))
    by (destruct m; cbn; lia).
  rewrite (wrap64_small (file_size + 8)) by lia.
  rewrite wrap64_small by lia. cbv zeta.
  rewrite (Z.mod_small (file_size + 8 - 1)) by lia.
  destruct (Z.ltb_spec (file_size + 8 - 1) (2 ^ (long_bits m - 1))); lia.
Qed.

Lemma take8_length (c : list byte) :
  (length (take 8 c) =? 8)%nat = true <-> (8 <= length c)%nat.
Proof. rewrite Nat.eqb_eq, length_take. lia. Qed.

Lemma write_at_empty_length (pos : Z) (x : byte) :
  0 <= pos -> Z.of_nat (length (write_at [] pos x)) = pos + 1.
Proof.
  intros H. unfold write_at. cbn [length].
  destruct (decide (Z.to_nat pos < 0)%nat) as [Hlt|_]; [lia|].
  rewrite app_nil_l, length_app, repeat_length. cbn [length]. lia.
Qed.

(** ** C strings *)

Lemma char_at_strlen (s : string) : char_at s (strlen s) = zero.
Proof.
  unfold char_at. induction s as [|c s IH]; simpl; [reflexivity|].
  destruct (Ascii.eqb c zero) eqn:E; simpl; [|exact IH].
  now apply Ascii.eqb_eq in E.
Qed.

Lemma separator_check_true (c : ascii) : separator_check c = true.
Proof.
  unfold separator_check.
  destruct (Ascii.eqb c "\") eqn:E1; [|reflexivity].
  apply Ascii.eqb_eq in E1. subst c. reflexivity.
Qed.

Lemma strlen_c_str_app (s t : string) :
  strlen (c_str s +:+ t) = (strlen s + strlen t)%nat.
Proof.
  unfold c_str. induction s as [|c s IH]; simpl; [reflexivity|].
  destruct (Ascii.eqb c zero) eqn:E; simpl; [reflexivity|].
  rewrite E. now rewrite IH.
Qed.

Lemma strlen_str_take (t : string) (n : nat) :
  strlen (str_take n t) = Nat.min n (strlen t).
Proof.
  revert t. induction n as [|n IH]; intros [|c t]; simpl; try reflexivity.
  destruct (Ascii.eqb c zero); [reflexivity|]. now rewrite IH.
Qed.

Lemma length_str_take (t : string) (n : nat) :
  (n <= strlen t)%nat -> String.length (str_take n t) = n.
Proof.
  revert t. induction n as [|n IH]; intros [|c t]; simpl; try reflexivity; try lia.
  destruct (Ascii.eqb c zero); simpl; [lia|]. intros H. f_equal. apply IH. lia.
Qed.

Lemma length_append (s t : string) :
  String.length (s +:+ t) = (String.length s + String.length t)%nat.
Proof. induction s as [|c s IH]; simpl; [reflexivity|]. now rewrite IH. Qed.

Lemma str_take_all (s : string) : str_take (String.length s) s = s.
Proof. induction s as [|c s IH]; simpl; [reflexivity|]. now rewrite IH. Qed.

(** A string built from the contents of C strings holds no NUL. *)
Lemma c_str_app_take (s t : string) (n : nat) :
  (n <= strlen t)%nat ->
  c_str (c_str s +:+ str_take n t) = c_str s +:+ str_take n t.
Proof.
  intros Hn. unfold c_str at 1.
  rewrite strlen_c_str_app, strlen_str_take, Nat.min_l by exact Hn.
  replace (strlen s + n)%nat with (String.length (c_str s +:+ str_take n t)).
  - apply str_take_all.
  - rewrite length_append, (length_str_take t n Hn). f_equal.
    unfold c_str. apply length_str_take. lia.
Qed.

Lemma c_str_idem (s : string) : c_str (c_str s) = c_str s.
Proof.
  unfold c_str at 1. unfold c_str at 1.
  rewrite strlen_str_take, Nat.min_id.
  replace (strlen s) with (String.length (c_str s)) at 1.
  - apply str_take_all.
  - unfold c_str. apply length_str_take. lia.
Qed.

Lemma entrustash_strncat_fits (dest : string) (dest_size : Z) (src : string) (count : Z) :
  Z.of_nat (strlen dest) + Z.min count (Z.of_nat (strlen src)) + 1 <= dest_size ->
  entrustash_strncat dest dest_size src count =
    (true, c_str dest +:+ str_take (Z.to_nat (Z.min count (Z.of_nat (strlen src)))) src).
Proof.
  intros H. unfold entrustash_strncat. cbv zeta.
  destruct (Z.leb_spec (Z.of_nat (strlen dest) + Z.min count (Z.of_nat (strlen src)) + 1)
              dest_size) as [_|Hbad]; [reflexivity | lia].
Qed.

(** ** The state of the world *)

Lemma lookup_fresh_stream (ss : gmap nat stream) : ss !! fresh (dom ss) = None.
Proof. apply not_elem_of_dom, is_fresh. Qed.

Lemma delete_insert_fresh (ss : gmap nat stream) (s : stream) :
  delete (fresh (dom ss)) (<[fresh (dom ss) := s]> ss) = ss.
Proof. rewrite delete_insert_eq. apply delete_id, lookup_fresh_stream. Qed.

(** What [entrustash_mkdir] does: it succeeds unless [_mkdir] fails for a
    reason other than [EEXIST], and touches the directories only. *)
Lemma entrustash_mkdir_spec (e : env) (d : string) (w : world) :
  exists w1,
    entrustash_mkdir e d w = (negb (mkdir_err e), w1) /\
    files w1 = files w /\ streams w1 = streams w /\
    output_file w1 = output_file w /\
    calls w1 = calls w ++ [(CallMkdir, negb (mkdir_err e))] /\
    dirs w1 = if mkdir_err e then dirs w
              else if decide (is_Some (files w !! d)) then dirs w
              else {[d]} ∪ dirs w.
Proof.
  unfold entrustash_mkdir, _mkdir.
  destruct (mkdir_err e);
    [|destruct (decide (d ∈ dirs w)) as [Hin|Hin];
      destruct (decide (is_Some (files w !! d))) as [Hfile|Hfile]];
    cbn; eexists; (split; [reflexivity|]); cbn; repeat split; try reflexivity.
  symmetry. apply subseteq_union_1_L. now apply singleton_subseteq_l.
Qed.

(** ** The model at work *)

Example magic_bytes_decode :
  decode_u64 LittleEndian magic_bytes = ENTRUSTASH_DAG_MAGIC_NUM /\
  decode_u64 BigEndian (rev magic_bytes) = ENTRUSTASH_DAG_MAGIC_NUM.
Proof. split; vm_compute; reflexivity. Qed.

Example sample_path_is_derived :
  dag_path sample_name no_faults "dag" zero_seed = Some sample_path.
Proof. vm_compute. reflexivity. Qed.

(** Reusing a good file: four calls, the stream left open after the magic
    number. *)
Example prepare_good_dag :
  let r := entrustash_io_prepare sample_name no_faults "dag" zero_seed 4 false
             (world_with good_dag) in
  fst r = ENTRUSTASH_IO_MEMO_MATCH /\
  calls (snd r) = [(CallMkdir, true); (CallFopen RB_PLUS, true);
                   (CallFileSize, true); (CallFread, true)] /\
  output_file (snd r) = Some 0%nat /\
  streams (snd r) !! 0%nat = Some {| s_path := sample_path; s_pos := 8; s_buf := [] |}.
Proof. vm_compute. repeat split. Qed.

(** Starting from nothing: the directory and a file of [4 + 8] bytes. *)
Example prepare_empty_world :
  let r := entrustash_io_prepare sample_name no_faults "dag" zero_seed 4 false
             empty_world in
  fst r = ENTRUSTASH_IO_MEMO_MISMATCH /\
  files (snd r) !! sample_path =
    Some [x00; x00; x00; x00; x00; x00; x00; x00; x00; x00; x00; x0a] /\
  calls (snd r) = [(CallMkdir, true); (CallFopen RB_PLUS, false);
                   (CallFopen WB_PLUS, true); (CallFseek, true);
                   (CallFputc, true); (CallFflush, true)].
Proof. vm_compute. repeat split. Qed.

(** A file of three bytes and an expected size of [2^64 - 5]: the size
    test passes by wrap-around and the read of the magic number fails. *)
Example prepare_short_dag_wrapped_size :
  let r := entrustash_io_prepare sample_name no_faults "dag" zero_seed (2 ^ 64 - 5)
             false (world_with short_dag) in
  fst r = ENTRUSTASH_IO_MEMO_SIZE_MISMATCH /\
  calls (snd r) = [(CallMkdir, true); (CallFopen RB_PLUS, true);
                   (CallFileSize, true); (CallFread, false); (CallFclose, true)].
Proof. vm_compute. repeat split. Qed.

(** ** entrustash.h: the size constants *)

(** C6. The initial cache size the header defines is [1073741824 = 2^30]:
    it is not the [2^24 = 16777216] bytes that the comment next to it and
    the 16 MB cache call for, and is no smaller than the initial dataset
    size. *)
Theorem cache_bytes_init_is_2_pow_30 :
  ENTRUSTASH_CACHE_BYTES_INIT = 2 ^ 30 /\
  ENTRUSTASH_CACHE_BYTES_INIT <> 2 ^ 24 /\
  ENTRUSTASH_CACHE_BYTES_INIT = ENTRUSTASH_DATASET_BYTES_INIT.
Proof.
  unfold ENTRUSTASH_CACHE_BYTES_INIT, ENTRUSTASH_DATASET_BYTES_INIT.
  split; [reflexivity | split; [discriminate | reflexivity]].
Qed.

(** ** io_win32.c: building the path *)

(** C7. In [entrustash_io_create_filename] the separator test is true for
    every [dirname] (indeed for every character it could look at), so the
    byte for the separator is always added to the allocation size and a
    backslash always goes between [dirname] and [filename], also when
    [dirname] ends with a separator already. *)
Theorem create_filename_separator_unconditional
    (dirname filename : string) (filename_length : Z) :
  (forall c : ascii, separator_check c = true) /\
  separator_check (char_at dirname (strlen dirname)) = true /\
  create_filename_dest_size dirname filename_length =
    wrap64 (wrap64 (wrap64 (Z.of_nat (strlen dirname) + filename_length) + 1) + 1) /\
  (0 <= filename_length ->
   Z.of_nat (strlen dirname) + filename_length + 2 < 2 ^ 64 ->
   create_filename_dest_size dirname filename_length =
     Z.of_nat (strlen dirname) + filename_length + 1 + 1 /\
   entrustash_io_create_filename true dirname filename filename_length =
     Some ((c_str dirname +:+ "\") +:+
           str_take (Z.to_nat (Z.min filename_length (Z.of_nat (strlen filename))))
             filename)).
Proof.
  assert (Hwrap : create_filename_dest_size dirname filename_length =
                  wrap64 (wrap64 (wrap64 (Z.of_nat (strlen dirname) + filename_length)
                                  + 1) + 1)).
  { unfold create_filename_dest_size. cbv zeta.
    now rewrite separator_check_true. }
  split; [exact separator_check_true|].
  split; [apply separator_check_true|].
  split; [exact Hwrap|].
  intros Hlen Hfit.
  assert (Hsize : create_filename_dest_size dirname filename_length =
                  Z.of_nat (strlen dirname) + filename_length + 1 + 1).
  { rewrite Hwrap.
    rewrite (wrap64_small (_ + filename_length)) by lia.
    rewrite (wrap64_small (Z.of_nat (strlen dirname) + filename_length + 1)) by lia.
    apply wrap64_small. lia. }
  split; [exact Hsize|].
  unfold entrustash_io_create_filename. cbv zeta.
  rewrite Hsize, separator_check_true. cbn [negb].
  rewrite (entrustash_strncat_fits "" _ dirname) by (cbn [strlen]; lia).
  cbn [snd]. rewrite Z.min_id, Nat2Z.id.
  change (c_str "" +:+ str_take (strlen dirname) dirname) with (c_str dirname).
  assert (Hd : strlen (c_str dirname) = strlen dirname).
  { unfold c_str. rewrite strlen_str_take. lia. }
  rewrite (entrustash_strncat_fits (c_str dirname) _ "\" 1)
    by (rewrite Hd; cbn [strlen Ascii.eqb Bool.eqb zero]; lia).
  cbn [snd]. rewrite c_str_idem.
  change (str_take (Z.to_nat (Z.min 1 (Z.of_nat (strlen "\")))) "\")
    with (str_take 1 "\").
  rewrite (entrustash_strncat_fits _ _ filename)
    by (rewrite strlen_c_str_app; cbn [strlen str_take Ascii.eqb Bool.eqb zero]; lia).
  cbn [snd]. rewrite (c_str_app_take dirname "\" 1) by (cbn; lia).
  reflexivity.
Qed.

(** A directory name that ends with a backslash gets a second one. *)
Lemma create_filename_separator_unconditional_witness :
  0 <= 4 /\
  Z.of_nat (strlen "C:\dag\") + 4 + 2 < 2 ^ 64 /\
  create_filename_dest_size "C:\dag\" 4 = 13 /\
  entrustash_io_create_filename true "C:\dag\" "full" 4 = Some "C:\dag\\full"%string.
Proof.
  split; [lia|]. split; [vm_compute; reflexivity|].
  destruct (create_filename_separator_unconditional "C:\dag\" "full" 4)
    as (_ & _ & _ & Hfits).
  destruct Hfits as [Hsize Hname]; [lia | vm_compute; reflexivity |].
  split; [exact Hsize | exact Hname].
Defined.

(** ** io.c: symbolic execution of [entrustash_io_prepare] *)

Ltac prims :=
  unfold create_file, set_file,
    entrustash_fopen, entrustash_file_size, fread_u64, fseek, fputc, fflush,
    fclose, write_out.

Ltac reduce :=
  cbn [fst snd dirs files streams errno output_file calls
       set_dirs set_files set_streams set_errno set_output_file log
       s_path s_pos s_buf negb app].

Ltac norm :=
  reduce;
  repeat (progress (rewrite ?lookup_insert_eq, ?insert_insert_eq,
                      ?delete_insert_fresh, ?lookup_fresh_stream);
          reduce).

Ltac step :=
  match goal with
  | |- context [match ?x with _ => _ end] =>
      lazymatch x with
      | context [match _ with _ => _ end] => fail
      | _ => destruct x eqn:?
      end
  end.

Ltac run := prims; norm; repeat (step; norm).

(** Runs the directory step of [entrustash_io_prepare] on world [w] and
    puts what [entrustash_mkdir_spec] says about the world it leaves in
    place of that world. *)
Ltac enter e dirname w :=
  unfold prepare_calls, entrustash_io_prepare;
  let w1 := fresh "w1" in
  let Hf := fresh "Hf" in let Hs := fresh "Hs" in
  let Ho := fresh "Ho" in let Hc := fresh "Hc" in
  let Hd := fresh "Hd" in
  destruct (entrustash_mkdir_spec e dirname (set_errno 0 w))
    as (w1 & -> & Hf & Hs & Ho & Hc & Hd);
  destruct w1 as [? ? ? ? ? ?];
  cbn [files streams output_file calls dirs set_errno] in Hf, Hs, Ho, Hc, Hd;
  subst.

Lemma prepare_validate name_of e dirname seedhash file_size w p c :
  mkdir_err e = false ->
  dag_path name_of e dirname seedhash = Some p ->
  files w !! p = Some c ->
  open_rb_err e = false ->
  stat_err e = false ->
  fst (entrustash_io_prepare name_of e dirname seedhash file_size false w) =
    if negb (file_size =? payload_size (wrap64 (Z.of_nat (length c))))
    then ENTRUSTASH_IO_MEMO_SIZE_MISMATCH
    else if read_err e || negb (length (take 8 c) =? 8)%nat
    then ENTRUSTASH_IO_MEMO_SIZE_MISMATCH
    else if negb (decode_u64 (host_order e) (take 8 c) =? ENTRUSTASH_DAG_MAGIC_NUM)
    then ENTRUSTASH_IO_MEMO_SIZE_MISMATCH
    else ENTRUSTASH_IO_MEMO_MATCH.
Proof.
  intros Hmk Hp Hc Ho Hs. enter e dirname w.
  rewrite Hmk, Hp. prims.
  repeat (progress (norm; rewrite ?Ho, ?Hc, ?Hs)).
  destruct (negb (file_size =? _)); [reflexivity|].
  repeat (progress (norm; rewrite ?Hc)).
  change (Z.to_nat 0) with 0%nat. rewrite drop_0.
  destruct (read_err e || _); [reflexivity|]. norm.
  destruct (negb _); reflexivity.
Qed.

Lemma prepare_match_inv name_of e dirname seedhash file_size force w p :
  dag_path name_of e dirname seedhash = Some p ->
  let r := entrustash_io_prepare name_of e dirname seedhash file_size force w in
  fst r = ENTRUSTASH_IO_MEMO_MATCH ->
  force = false /\ mkdir_err e = false /\ open_rb_err e = false /\
  stat_err e = false /\ read_err e = false /\
  exists c,
    files w !! p = Some c /\
    file_size = payload_size (wrap64 (Z.of_nat (length c))) /\
    (8 <= length c)%nat /\
    decode_u64 (host_order e) (take 8 c) = ENTRUSTASH_DAG_MAGIC_NUM /\
    output_file (snd r) = Some (fresh (dom (streams w))) /\
    streams (snd r) =
      <[fresh (dom (streams w)) := {| s_path := p; s_pos := 8; s_buf := [] |}]>
        (streams w) /\
    files (snd r) = files w.
Proof.
  intros Hp r. subst r. enter e dirname w.
  rewrite Hp. run; try discriminate.
  intros _. cbn [s_path] in *.
  change (Z.to_nat 0) with 0%nat in *. rewrite drop_0 in *.
  repeat match goal with
         | H : Some _ = Some _ |- _ => injection H as H; subst
         | H : files w !! p = Some _, H' : files w !! p = Some _ |- _ =>
             rewrite H in H'
         | H : negb _ = true |- _ => apply Bool.negb_true_iff in H
         | H : negb _ = false |- _ => apply Bool.negb_false_iff in H
         | H : _ || _ = false |- _ => apply Bool.orb_false_iff in H as [? ?]
         | H : Z.eqb _ _ = true |- _ => apply Z.eqb_eq in H
         | H : Nat.eqb _ _ = true |- _ => apply take8_length in H
         end.
  repeat (split; [assumption || reflexivity|]).
  eexists. repeat (split; [eassumption || reflexivity|]). reflexivity.
Qed.

(** ** io.c: reusing an existing DAG file *)

(** C1. Once the directory is ensured and the path is built, a call with
    [force_create = false] returns MATCH exactly when the file at that path
    exists and can be opened, its size can be queried, its size less the 8
    bytes of the magic number is [file_size], and its first 8 bytes, as
    [fread] delivers them, are the magic number.  On MATCH the stream that
    was opened is stored in [*output_file], positioned after the magic
    number, and the files are as they were. *)
Theorem prepare_match_iff name_of e dirname seedhash file_size w p :
  mkdir_err e = false ->
  dag_path name_of e dirname seedhash = Some p ->
  (forall c, files w !! p = Some c -> Z.of_nat (length c) < 2 ^ 64) ->
  let r := entrustash_io_prepare name_of e dirname seedhash file_size false w in
  (fst r = ENTRUSTASH_IO_MEMO_MATCH <->
   exists c,
     files w !! p = Some c /\ open_rb_err e = false /\
     stat_err e = false /\
     Z.of_nat (length c) - ENTRUSTASH_DAG_MAGIC_NUM_SIZE = file_size /\
     read_err e = false /\ (8 <= length c)%nat /\
     decode_u64 (host_order e) (take 8 c) = ENTRUSTASH_DAG_MAGIC_NUM) /\
  (fst r = ENTRUSTASH_IO_MEMO_MATCH ->
   exists f,
     output_file (snd r) = Some f /\
     streams w !! f = None /\
     streams (snd r) !! f = Some {| s_path := p; s_pos := 8; s_buf := [] |} /\
     files (snd r) = files w).
Proof.
  intros Hmk Hp Hrepr r. subst r. split; [split|].
  - intros Hm.
    destruct (prepare_match_inv name_of e dirname seedhash file_size false w p Hp Hm)
      as (_ & _ & Ho & Hs & Hr & c & Hc & Hsz & Hlen & Hmagic & _).
    exists c. repeat (split; [assumption|]). split; [|auto].
    rewrite Hsz, payload_size_exact; [reflexivity|].
    specialize (Hrepr c Hc). lia.
  - intros (c & Hc & Ho & Hs & Hsz & Hr & Hlen & Hmagic).
    rewrite (prepare_validate _ _ _ _ _ _ _ _ Hmk Hp Hc Ho Hs).
    rewrite payload_size_exact by (specialize (Hrepr c Hc); lia).
    unfold ENTRUSTASH_DAG_MAGIC_NUM_SIZE in Hsz. rewrite Hsz, Z.eqb_refl.
    apply take8_length in Hlen. rewrite Hr, Hlen, Hmagic, Z.eqb_refl. reflexivity.
  - intros Hm.
    destruct (prepare_match_inv name_of e dirname seedhash file_size false w p Hp Hm)
      as (_ & _ & _ & _ & _ & c & _ & _ & _ & _ & Hout & Hss & Hfiles).
    exists (fresh (dom (streams w))). split; [exact Hout|].
    split; [apply lookup_fresh_stream|]. split; [|exact Hfiles].
    rewrite Hss. apply lookup_insert_eq.
Qed.

(** A well-formed file with a four-byte payload is reused. *)
Lemma prepare_match_iff_witness :
  mkdir_err no_faults = false /\
  dag_path sample_name no_faults "dag" zero_seed = Some sample_path /\
  (forall c, files (world_with good_dag) !! sample_path = Some c ->
             Z.of_nat (length c) < 2 ^ 64) /\
  fst (entrustash_io_prepare sample_name no_faults "dag" zero_seed 4 false
         (world_with good_dag)) = ENTRUSTASH_IO_MEMO_MATCH.
Proof.
  assert (H1 : mkdir_err no_faults = false) by reflexivity.
  assert (H2 : dag_path sample_name no_faults "dag" zero_seed = Some sample_path)
    by (vm_compute; reflexivity).
  assert (H3 : forall c, files (world_with good_dag) !! sample_path = Some c ->
                         Z.of_nat (length c) < 2 ^ 64).
  { intros c Hc. vm_compute in Hc. injection Hc as <-. vm_compute. reflexivity. }
  split; [exact H1|]. split; [exact H2|]. split; [exact H3|].
  apply (prepare_match_iff sample_name no_faults "dag" zero_seed 4
           (world_with good_dag) sample_path H1 H2 H3).
  exists good_dag. vm_compute. repeat split; lia.
Defined.

(** C2, as the code has it.  An existing file of the expected payload size
    whose first 8 bytes are not the magic number is reported as
    SIZE_MISMATCH, the status of a file of the wrong size. *)
Theorem prepare_bad_magic_size_mismatch name_of e dirname seedhash file_size w p c :
  mkdir_err e = false ->
  dag_path name_of e dirname seedhash = Some p ->
  files w !! p = Some c ->
  open_rb_err e = false ->
  stat_err e = false ->
  Z.of_nat (length c) - ENTRUSTASH_DAG_MAGIC_NUM_SIZE = file_size ->
  decode_u64 (host_order e) (take 8 c) <> ENTRUSTASH_DAG_MAGIC_NUM ->
  fst (entrustash_io_prepare name_of e dirname seedhash file_size false w) =
    ENTRUSTASH_IO_MEMO_SIZE_MISMATCH.
Proof.
  intros Hmk Hp Hc Ho Hs _ Hmagic.
  rewrite (prepare_validate _ _ _ _ _ _ _ _ Hmk Hp Hc Ho Hs).
  destruct (negb (file_size =? _)); [reflexivity|].
  destruct (read_err e || _); [reflexivity|].
  destruct (Z.eqb_spec (decode_u64 (host_order e) (take 8 c))
              ENTRUSTASH_DAG_MAGIC_NUM) as [Heq|_]; [contradiction|reflexivity].
Qed.

Lemma prepare_bad_magic_size_mismatch_witness :
  mkdir_err no_faults = false /\
  dag_path sample_name no_faults "dag" zero_seed = Some sample_path /\
  files (world_with bad_magic_dag) !! sample_path = Some bad_magic_dag /\
  open_rb_err no_faults = false /\
  stat_err no_faults = false /\
  Z.of_nat (length bad_magic_dag) - ENTRUSTASH_DAG_MAGIC_NUM_SIZE = 4 /\
  decode_u64 (host_order no_faults) (take 8 bad_magic_dag) <> ENTRUSTASH_DAG_MAGIC_NUM /\
  fst (entrustash_io_prepare sample_name no_faults "dag" zero_seed 4 false
         (world_with bad_magic_dag)) = ENTRUSTASH_IO_MEMO_SIZE_MISMATCH.
Proof.
  assert (H2 : dag_path sample_name no_faults "dag" zero_seed = Some sample_path)
    by (vm_compute; reflexivity).
  assert (H3 : files (world_with bad_magic_dag) !! sample_path = Some bad_magic_dag)
    by (vm_compute; reflexivity).
  assert (H7 : decode_u64 (host_order no_faults) (take 8 bad_magic_dag)
               <> ENTRUSTASH_DAG_MAGIC_NUM) by (vm_compute; discriminate).
  repeat (split; [first [reflexivity | assumption]|]).
  apply (prepare_bad_magic_size_mismatch sample_name no_faults "dag" zero_seed 4
           (world_with bad_magic_dag) sample_path bad_magic_dag);
    first [reflexivity | assumption].
Defined.

(** C2, as stated, fails: the file [bad_magic_dag] exists, has the
    expected payload size and a damaged magic number, and the status is
    SIZE_MISMATCH, not MISMATCH. *)
Lemma prepare_bad_magic_not_mismatch :
  files (world_with bad_magic_dag) !! sample_path = Some bad_magic_dag /\
  Z.of_nat (length bad_magic_dag) - ENTRUSTASH_DAG_MAGIC_NUM_SIZE = 4 /\
  decode_u64 LittleEndian (take 8 bad_magic_dag) <> ENTRUSTASH_DAG_MAGIC_NUM /\
  fst (entrustash_io_prepare sample_name no_faults "dag" zero_seed 4 false
         (world_with bad_magic_dag)) <> ENTRUSTASH_IO_MEMO_MISMATCH.
Proof.
  split; [vm_compute; reflexivity|]. split; [reflexivity|].
  split; vm_compute; discriminate.
Qed.

(** C3. An existing file, opened and measured, whose size less the 8 bytes
    of the magic number differs from [file_size] is reported as
    SIZE_MISMATCH; and whatever else happens, such a file never gives
    MATCH. *)
Theorem prepare_wrong_size name_of e dirname seedhash file_size force w p c :
  dag_path name_of e dirname seedhash = Some p ->
  files w !! p = Some c ->
  Z.of_nat (length c) < 2 ^ 64 ->
  Z.of_nat (length c) - ENTRUSTASH_DAG_MAGIC_NUM_SIZE <> file_size ->
  fst (entrustash_io_prepare name_of e dirname seedhash file_size force w)
    <> ENTRUSTASH_IO_MEMO_MATCH /\
  (mkdir_err e = false -> open_rb_err e = false -> stat_err e = false ->
   fst (entrustash_io_prepare name_of e dirname seedhash file_size false w) =
     ENTRUSTASH_IO_MEMO_SIZE_MISMATCH).
Proof.
  intros Hp Hc Hrepr Hsz. unfold ENTRUSTASH_DAG_MAGIC_NUM_SIZE in Hsz. split.
  - intros Hm.
    destruct (prepare_match_inv name_of e dirname seedhash file_size force w p Hp Hm)
      as (_ & _ & _ & _ & _ & c' & Hc' & Hsz' & Hlen & _).
    rewrite Hc in Hc'. injection Hc' as <-.
    rewrite payload_size_exact in Hsz' by lia. lia.
  - intros Hmk Ho Hs.
    rewrite (prepare_validate _ _ _ _ _ _ _ _ Hmk Hp Hc Ho Hs).
    destruct (negb (file_size =? _)) eqn:Hcmp; [reflexivity|].
    apply Bool.negb_false_iff, Z.eqb_eq in Hcmp.
    destruct (le_lt_dec 8 (length c)) as [Hge|Hlt].
    + rewrite payload_size_exact in Hcmp by lia. lia.
    + assert (Hshort : (length (take 8 c) =? 8)%nat = false).
      { apply Nat.eqb_neq. rewrite length_take. lia. }
      rewrite Hshort, Bool.orb_true_r. reflexivity.
Qed.

Lemma prepare_wrong_size_witness :
  dag_path sample_name no_faults "dag" zero_seed = Some sample_path /\
  files (world_with good_dag) !! sample_path = Some good_dag /\
  Z.of_nat (length good_dag) < 2 ^ 64 /\
  Z.of_nat (length good_dag) - ENTRUSTASH_DAG_MAGIC_NUM_SIZE <> 5 /\
  fst (entrustash_io_prepare sample_name no_faults "dag" zero_seed 5 false
         (world_with good_dag)) = ENTRUSTASH_IO_MEMO_SIZE_MISMATCH.
Proof.
  assert (H1 : dag_path sample_name no_faults "dag" zero_seed = Some sample_path)
    by (vm_compute; reflexivity).
  assert (H2 : files (world_with good_dag) !! sample_path = Some good_dag)
    by (vm_compute; reflexivity).
  assert (H3 : Z.of_nat (length good_dag) < 2 ^ 64) by (vm_compute; reflexivity).
  assert (H4 : Z.of_nat (length good_dag) - ENTRUSTASH_DAG_MAGIC_NUM_SIZE <> 5)
    by (vm_compute; discriminate).
  repeat (split; [assumption|]).
  apply (prepare_wrong_size sample_name no_faults "dag" zero_seed 5 false
           (world_with good_dag) sample_path good_dag H1 H2 H3 H4); reflexivity.
Defined.

(** C10. For a file shorter than the magic number the subtraction
    [found_size - ENTRUSTASH_DAG_MAGIC_NUM_SIZE] wraps to at least
    [2^64 - 8], so every [file_size] below that bound gets SIZE_MISMATCH. *)
Theorem prepare_truncated_file name_of e dirname seedhash file_size w p c :
  mkdir_err e = false ->
  dag_path name_of e dirname seedhash = Some p ->
  files w !! p = Some c ->
  open_rb_err e = false ->
  stat_err e = false ->
  (length c < 8)%nat ->
  file_size < 2 ^ 64 - 8 ->
  2 ^ 64 - 8 <= payload_size (wrap64 (Z.of_nat (length c))) < 2 ^ 64 /\
  (file_size =? payload_size (wrap64 (Z.of_nat (length c)))) = false /\
  fst (entrustash_io_prepare name_of e dirname seedhash file_size false w) =
    ENTRUSTASH_IO_MEMO_SIZE_MISMATCH.
Proof.
  intros Hmk Hp Hc Ho Hs Hshort Hfs.
  assert (Hwrap : payload_size (wrap64 (Z.of_nat (length c))) =
                  2 ^ 64 - 8 + Z.of_nat (length c))
    by (apply payload_size_wraps; lia).
  assert (Hne : (file_size =? payload_size (wrap64 (Z.of_nat (length c)))) = false)
    by (apply Z.eqb_neq; lia).
  split; [lia|]. split; [exact Hne|].
  rewrite (prepare_validate _ _ _ _ _ _ _ _ Hmk Hp Hc Ho Hs), Hne. reflexivity.
Qed.

Lemma prepare_truncated_file_witness :
  mkdir_err no_faults = false /\
  dag_path sample_name no_faults "dag" zero_seed = Some sample_path /\
  files (world_with short_dag) !! sample_path = Some short_dag /\
  open_rb_err no_faults = false /\
  stat_err no_faults = false /\
  (length short_dag < 8)%nat /\
  4 < 2 ^ 64 - 8 /\
  payload_size (wrap64 (Z.of_nat (length short_dag))) = 2 ^ 64 - 5 /\
  fst (entrustash_io_prepare sample_name no_faults "dag" zero_seed 4 false
         (world_with short_dag)) = ENTRUSTASH_IO_MEMO_SIZE_MISMATCH.
Proof.
  assert (H2 : dag_path sample_name no_faults "dag" zero_seed = Some sample_path)
    by (vm_compute; reflexivity).
  assert (H3 : files (world_with short_dag) !! sample_path = Some short_dag)
    by (vm_compute; reflexivity).
  assert (H6 : (length short_dag < 8)%nat) by (vm_compute; lia).
  assert (H7 : 4 < 2 ^ 64 - 8) by reflexivity.
  repeat (split; [first [reflexivity | assumption]|]).
  apply (prepare_truncated_file sample_name no_faults "dag" zero_seed 4
           (world_with short_dag) sample_path short_dag);
    first [reflexivity | assumption].
Defined.

(** ** io.c: the caller's [FILE*] and the streams *)

(** C9. [*output_file] is written on the MATCH and MISMATCH returns only,
    and then holds the one stream the call opened.  On a FAIL or
    SIZE_MISMATCH return [*output_file] is as before and so is the table
    of open streams: whatever the call opened it has closed. *)
Theorem prepare_output_file_frame name_of e dirname seedhash file_size force w :
  let r := entrustash_io_prepare name_of e dirname seedhash file_size force w in
  match fst r with
  | ENTRUSTASH_IO_MEMO_MATCH | ENTRUSTASH_IO_MEMO_MISMATCH =>
      exists f s,
        output_file (snd r) = Some f /\
        streams w !! f = None /\
        streams (snd r) = <[f := s]> (streams w)
  | ENTRUSTASH_IO_FAIL | ENTRUSTASH_IO_MEMO_SIZE_MISMATCH =>
      output_file (snd r) = output_file w /\ streams (snd r) = streams w
  end.
Proof.
  intros r. subst r. enter e dirname w.
  run; try (split; reflexivity); try discriminate.
  all: eexists _, _; split; [reflexivity|];
    split; [apply lookup_fresh_stream | reflexivity].
Qed.

(** ** io.c: failures of the library calls *)

Ltac trace_of w :=
  rewrite <- ?app_assoc; rewrite (drop_app_length (calls w)); cbn [app].

Ltac absurd_member H :=
  repeat (apply elem_of_cons in H as [H|H]; [discriminate H|]);
  apply elem_of_nil in H; contradiction.

(** C4, as the code has it.  When creating the directory, querying the
    size, seeking, writing or flushing fails, the status is FAIL, which is
    none of MISMATCH, SIZE_MISMATCH and MATCH. *)
Theorem prepare_failure_is_fail name_of e dirname seedhash file_size force w c :
  c ∈ [CallMkdir; CallFileSize; CallFseek; CallFputc; CallFflush] ->
  (c, false) ∈ prepare_calls name_of e dirname seedhash file_size force w ->
  let rc := fst (entrustash_io_prepare name_of e dirname seedhash file_size force w) in
  rc = ENTRUSTASH_IO_FAIL /\
  rc <> ENTRUSTASH_IO_MEMO_MISMATCH /\
  rc <> ENTRUSTASH_IO_MEMO_SIZE_MISMATCH /\
  rc <> ENTRUSTASH_IO_MEMO_MATCH.
Proof.
  intros Hc. enter e dirname w.
  run; trace_of w; intros Hin;
    try (split; [reflexivity | repeat split; discriminate]).
  all: exfalso;
    repeat (apply elem_of_cons in Hc as [->|Hc]; [absurd_member Hin|]);
    apply elem_of_nil in Hc; exact Hc.
Qed.

Lemma prepare_failure_is_fail_witness :
  CallFseek ∈ [CallMkdir; CallFileSize; CallFseek; CallFputc; CallFflush] /\
  (CallFseek, false) ∈
    prepare_calls sample_name seek_fault "dag" zero_seed 4 false empty_world /\
  fst (entrustash_io_prepare sample_name seek_fault "dag" zero_seed 4 false
         empty_world) = ENTRUSTASH_IO_FAIL.
Proof.
  assert (H1 : CallFseek ∈ [CallMkdir; CallFileSize; CallFseek; CallFputc; CallFflush]).
  { apply elem_of_cons; right. apply elem_of_cons; right.
    apply elem_of_cons; left. reflexivity. }
  assert (Htr : prepare_calls sample_name seek_fault "dag" zero_seed 4 false empty_world =
                [(CallMkdir, true); (CallFopen RB_PLUS, false);
                 (CallFopen WB_PLUS, true); (CallFseek, false); (CallFclose, true)])
    by (vm_compute; reflexivity).
  assert (H2 : (CallFseek, false) ∈
               prepare_calls sample_name seek_fault "dag" zero_seed 4 false empty_world).
  { rewrite Htr. do 3 (apply elem_of_cons; right). apply elem_of_cons; left.
    reflexivity. }
  split; [exact H1|]. split; [exact H2|].
  apply (prepare_failure_is_fail sample_name seek_fault "dag" zero_seed 4 false
           empty_world CallFseek H1 H2).
Defined.

(** C4, as stated, fails for the read of the magic number: with a read
    error on a file of the expected size, [fread] fails and the status is
    SIZE_MISMATCH, not FAIL. *)
Lemma prepare_read_failure_not_fail :
  (CallFread, false) ∈
    prepare_calls sample_name read_fault "dag" zero_seed 4 false (world_with good_dag) /\
  fst (entrustash_io_prepare sample_name read_fault "dag" zero_seed 4 false
         (world_with good_dag)) = ENTRUSTASH_IO_MEMO_SIZE_MISMATCH /\
  fst (entrustash_io_prepare sample_name read_fault "dag" zero_seed 4 false
         (world_with good_dag)) <> ENTRUSTASH_IO_FAIL.
Proof.
  assert (Htr : prepare_calls sample_name read_fault "dag" zero_seed 4 false
                  (world_with good_dag) =
                [(CallMkdir, true); (CallFopen RB_PLUS, true); (CallFileSize, true);
                 (CallFread, false); (CallFclose, true)])
    by (vm_compute; reflexivity).
  split.
  - rewrite Htr. do 3 (apply elem_of_cons; right). apply elem_of_cons; left.
    reflexivity.
  - split; vm_compute; [reflexivity | discriminate].
Qed.

(** ** io.c: creating the DAG file *)




(** C8, as the code has it.  With [force_create = true] the file that may
    be there is never opened for reading, measured or read, and the status
    is MISMATCH or FAIL, never MATCH.  When the directory step, the path
    and the open in mode ["wb+"] succeed, that open is made and the old
    contents are gone: the file is empty, or holds the zeros and the
    newline of the resizing; when the seek, the write and the flush succeed
    as well the file is the resized one and the status is MISMATCH.  When
    one of the first three fails the status is FAIL, no file is opened for
    writing and every file is as it was. *)
Theorem prepare_force_create name_of e dirname seedhash file_size w :
  let r := entrustash_io_prepare name_of e dirname seedhash file_size true w in
  let tr := prepare_calls name_of e dirname seedhash file_size true w in
  (fst r = ENTRUSTASH_IO_MEMO_MISMATCH \/ fst r = ENTRUSTASH_IO_FAIL) /\
  fst r <> ENTRUSTASH_IO_MEMO_MATCH /\
  (forall ok, ((CallFopen RB_PLUS, ok) ∉ tr) /\ ((CallFileSize, ok) ∉ tr) /\
              ((CallFread, ok) ∉ tr)) /\
  (forall p, dag_path name_of e dirname seedhash = Some p ->
             mkdir_err e = false -> open_wb_err e = false ->
             (CallFopen WB_PLUS, true) ∈ tr /\
             (files (snd r) = <[p := []]> (files w) \/
              files (snd r) =
                <[p := write_at [] (last_offset (model e) file_size) x0a]> (files w))) /\
  (forall p, dag_path name_of e dirname seedhash = Some p ->
             mkdir_err e = false -> open_wb_err e = false ->
             seek_err e = false -> 0 <= last_offset (model e) file_size ->
             putc_err e = false -> flush_err e = false ->
             fst r = ENTRUSTASH_IO_MEMO_MISMATCH /\
             files (snd r) =
               <[p := write_at [] (last_offset (model e) file_size) x0a]> (files w) /\
             tr = [(CallMkdir, true); (CallFopen WB_PLUS, true); (CallFseek, true);
                   (CallFputc, true); (CallFflush, true)]) /\
  (mkdir_err e = true \/ dag_path name_of e dirname seedhash = None \/
   open_wb_err e = true ->
   fst r = ENTRUSTASH_IO_FAIL /\ files (snd r) = files w /\
   (CallFopen WB_PLUS, true) ∉ tr) /\
  (fst r = ENTRUSTASH_IO_MEMO_MISMATCH -> (CallFopen WB_PLUS, true) ∈ tr).
Proof.
  intros r tr. subst r tr. enter e dirname w.
  destruct (dag_path name_of e dirname seedhash) as [p|] eqn:Hp.
  - run; trace_of w.
    all: repeat match goal with
                | H : negb _ = true |- _ => apply Bool.negb_true_iff in H
                | H : negb _ = false |- _ => apply Bool.negb_false_iff in H
                | H : _ || _ = false |- _ => apply Bool.orb_false_iff in H as [? ?]
                | H : _ || _ = true |- _ => apply Bool.orb_true_iff in H
                | H : Z.ltb _ _ = false |- _ => apply Z.ltb_ge in H
                | H : Z.ltb _ _ = true |- _ => apply Z.ltb_lt in H
                end.
    all: split; [auto|]; split; [discriminate|].
    all: split; [intros ok; repeat split; intros Hin; absurd_member Hin|].
    all: split;
      [intros q Hq Hmk Hwb; injection Hq as <-;
       first [congruence
             | split; [apply elem_of_cons; right; apply elem_of_cons; left;
                       reflexivity|];
               unfold commit; cbn [foldl fst snd]; rewrite ?insert_insert_eq; auto]|].
    all: split;
      [intros q Hq Hmk Hwb Hseek Hoff Hputc Hflush; injection Hq as <-;
       first [congruence
             | exfalso; intuition (congruence || lia)
             | repeat split; reflexivity]|].
    all: split;
      [intros Hfail;
       first [exfalso; destruct Hfail as [Hfail|[Hfail|Hfail]]; congruence
             | split; [reflexivity|]; split; [reflexivity|];
               intros Hin; absurd_member Hin]|].
    all: intros Hm;
      first [discriminate Hm
            | apply elem_of_cons; right; apply elem_of_cons; left; reflexivity].
  - run; trace_of w.
    all: split; [auto|]; split; [discriminate|].
    all: split; [intros ok; repeat split; intros Hin; absurd_member Hin|].
    all: split; [intros q Hq; discriminate Hq|].
    all: split; [intros q Hq; discriminate Hq|].
    all: split; [intros _; split; [reflexivity|]; split; [reflexivity|];
                 intros Hin; absurd_member Hin|].
    all: intros Hm; discriminate Hm.
Qed.

(** Forcing the creation over a good file, with nothing failing. *)
Lemma prepare_force_create_witness :
  dag_path sample_name no_faults "dag" zero_seed = Some sample_path /\
  0 <= last_offset (model no_faults) 4 /\
  fst (entrustash_io_prepare sample_name no_faults "dag" zero_seed 4 true
         (world_with good_dag)) = ENTRUSTASH_IO_MEMO_MISMATCH /\
  files (snd (entrustash_io_prepare sample_name no_faults "dag" zero_seed 4 true
                (world_with good_dag))) =
    <[sample_path := write_at [] (last_offset (model no_faults) 4) x0a]>
      (files (world_with good_dag)).
Proof.
  assert (H1 : dag_path sample_name no_faults "dag" zero_seed = Some sample_path)
    by (vm_compute; reflexivity).
  assert (H2 : 0 <= last_offset (model no_faults) 4) by (vm_compute; discriminate).
  destruct (prepare_force_create sample_name no_faults "dag" zero_seed 4
              (world_with good_dag)) as (_ & _ & _ & _ & Hresize & _).
  destruct (Hresize sample_path H1 eq_refl eq_refl eq_refl H2 eq_refl eq_refl)
    as (Hm & Hfiles & _).
  split; [exact H1|]. split; [exact H2|]. split; [exact Hm | exact Hfiles].
Defined.

(** C8, as stated, fails when the open in mode ["wb+"] is refused: the
    status is FAIL, the file is not opened for writing and the dataset
    that was there is still there. *)
Lemma prepare_force_create_keeps_file :
  files (world_with good_dag) !! sample_path = Some good_dag /\
  fst (entrustash_io_prepare sample_name open_wb_fault "dag" zero_seed 4 true
         (world_with good_dag)) = ENTRUSTASH_IO_FAIL /\
  prepare_calls sample_name open_wb_fault "dag" zero_seed 4 true
    (world_with good_dag) = [(CallMkdir, true); (CallFopen WB_PLUS, false)] /\
  files (snd (entrustash_io_prepare sample_name open_wb_fault "dag" zero_seed 4 true
                (world_with good_dag))) !! sample_path = Some good_dag.
Proof. repeat split; vm_compute; reflexivity. Qed.

(** * Further properties of the code *)

(** ** io_win32.c: the string helpers *)

Lemma c_str_fixed_iff (s : string) : c_str s = s <-> strlen s = String.length s.
Proof.
  split.
  - intros H. rewrite <- H at 2. unfold c_str. symmetry.
    apply length_str_take. lia.
  - intros H. unfold c_str. rewrite H. apply str_take_all.
Qed.

Lemma c_str_app (s t : string) :
  c_str s = s -> c_str t = t -> c_str (s +:+ t) = s +:+ t.
Proof.
  intros Hs Ht. apply c_str_fixed_iff.
  rewrite <- Hs at 1. rewrite strlen_c_str_app, length_append.
  apply c_str_fixed_iff in Hs, Ht. lia.
Qed.

(** Without room for what it is to append [entrustash_strncat] returns
    [NULL]. *)
Lemma entrustash_strncat_fails
    (dest : string) (dest_size : Z) (src : string) (count : Z) :
  dest_size < Z.of_nat (strlen dest) + Z.min count (Z.of_nat (strlen src)) + 1 ->
  fst (entrustash_strncat dest dest_size src count) = false.
Proof.
  intros H. unfold entrustash_strncat. cbv zeta.
  destruct (Z.leb_spec (Z.of_nat (strlen dest) + Z.min count (Z.of_nat (strlen src)) + 1)
              dest_size) as [Hfit|_]; [lia|].
  destruct (dest_size <=? 0); [reflexivity|].
  destruct (dest_size <=? Z.of_nat (strlen dest)); [reflexivity|].
  destruct (count =? _TRUNCATE); reflexivity.
Qed.

(** The value of [entrustash_io_create_filename] when nothing overflows. *)
Lemma create_filename_value (dirname filename : string) (filename_length : Z) :
  0 <= filename_length ->
  Z.of_nat (strlen dirname) + filename_length + 2 < 2 ^ 64 ->
  entrustash_io_create_filename true dirname filename filename_length =
    Some ((c_str dirname +:+ "\") +:+
          str_take (Z.to_nat (Z.min filename_length (Z.of_nat (strlen filename))))
            filename).
Proof.
  intros Hlen Hfit.
  assert (Hsize : create_filename_dest_size dirname filename_length =
                  Z.of_nat (strlen dirname) + filename_length + 1 + 1).
  { unfold create_filename_dest_size. cbv zeta. rewrite separator_check_true.
    rewrite (wrap64_small (_ + filename_length)) by lia.
    rewrite (wrap64_small (Z.of_nat (strlen dirname) + filename_length + 1)) by lia.
    apply wrap64_small. lia. }
  assert (Hd : strlen (c_str dirname) = strlen dirname)
    by (unfold c_str; rewrite strlen_str_take; lia).
  unfold entrustash_io_create_filename. cbv zeta.
  rewrite Hsize, separator_check_true. cbn [negb].
  rewrite (entrustash_strncat_fits "" _ dirname) by (cbn [strlen]; lia).
  cbn [snd]. rewrite Z.min_id, Nat2Z.id.
  change (c_str "" +:+ str_take (strlen dirname) dirname) with (c_str dirname).
  rewrite (entrustash_strncat_fits (c_str dirname) _ "\" 1)
    by (rewrite Hd; cbn [strlen Ascii.eqb Bool.eqb zero]; lia).
  cbn [snd]. rewrite c_str_idem.
  change (str_take (Z.to_nat (Z.min 1 (Z.of_nat (strlen "\")))) "\")
    with (str_take 1 "\").
  rewrite (entrustash_strncat_fits _ _ filename)
    by (rewrite strlen_c_str_app; cbn [strlen str_take Ascii.eqb Bool.eqb zero]; lia).
  cbn [snd]. rewrite (c_str_app_take dirname "\" 1) by (cbn; lia).
  reflexivity.
Qed.

(** ** io_win32.c: [entrustash_get_default_dirname] *)

Lemma get_default_dirname_cases (folder : string) (buffsize : Z) :
  (forall strbuf, entrustash_get_default_dirname (false, strbuf) buffsize =
                  (false, strbuf)) /\
  let r := entrustash_get_default_dirname (true, folder) buffsize in
  (fst r = true <-> Z.of_nat (strlen folder) + 13 <= buffsize) /\
  (fst r = true -> snd r = (c_str folder +:+ "\") +:+ dir_suffix).
Proof.
  split; [reflexivity|]. intros r. subst r.
  unfold entrustash_get_default_dirname. cbn [negb].
  destruct (Z.le_gt_cases (Z.of_nat (strlen folder) + 2) buffsize) as [Hfit1|Hbig1].
  - rewrite (entrustash_strncat_fits folder buffsize "\" 1)
      by (cbn [strlen Ascii.eqb Bool.eqb zero]; lia).
    change (str_take (Z.to_nat (Z.min 1 (Z.of_nat (strlen "\")))) "\")
      with (str_take 1 "\").
    assert (Hlen : strlen (c_str folder +:+ str_take 1 "\") = (strlen folder + 1)%nat)
      by (rewrite strlen_c_str_app; reflexivity).
    destruct (Z.le_gt_cases (Z.of_nat (strlen folder) + 13) buffsize) as [Hfit2|Hbig2].
    + rewrite (entrustash_strncat_fits _ buffsize dir_suffix)
        by (rewrite Hlen; vm_compute Z.min; lia).
      cbn [fst snd]. split; [split; [intros _; assumption | reflexivity]|].
      intros _. rewrite (c_str_app_take folder "\" 1) by (cbn; lia). reflexivity.
    + rewrite (entrustash_strncat_fails _ buffsize dir_suffix sizeof_dir_suffix)
        by (rewrite Hlen; vm_compute Z.min; lia).
      split; [split; [intros H; discriminate H | lia]|].
      intros H; discriminate H.
  - assert (Hfail := entrustash_strncat_fails folder buffsize "\" 1).
    destruct (entrustash_strncat folder buffsize "\" 1) as [[|] strbuf];
      cbn [fst snd] in *.
    + discriminate Hfail. cbn [strlen Ascii.eqb Bool.eqb zero]. lia.
    + split; [split; [intros H; discriminate H | lia]|].
      intros H; discriminate H.
Qed.

(** When [SHGetFolderPathA] fails, [entrustash_get_default_dirname] fails
    and leaves the buffer to it.  When it gives a folder, the call returns
    [true] exactly when the folder, a backslash, ["Entrustash\"] and the
    terminator fit in [buffsize] bytes, 13 more than the folder is long;
    the buffer then holds that path, which ends with a backslash. *)
Theorem get_default_dirname_outcome (folder : string) (buffsize : Z) :
  (forall strbuf, entrustash_get_default_dirname (false, strbuf) buffsize =
                  (false, strbuf)) /\
  let r := entrustash_get_default_dirname (true, folder) buffsize in
  (fst r = true <-> Z.of_nat (strlen folder) + 13 <= buffsize) /\
  (fst r = true -> snd r = (c_str folder +:+ "\") +:+ dir_suffix).
Proof. exact (get_default_dirname_cases folder buffsize). Qed.

(** The default directory ends with a backslash and
    [entrustash_io_create_filename] adds its own: the path of a file in
    the default directory has two backslashes before the file name. *)
Theorem default_dirname_then_create_filename
    (folder filename : string) (buffsize filename_length : Z) :
  fst (entrustash_get_default_dirname (true, folder) buffsize) = true ->
  0 <= filename_length ->
  Z.of_nat (strlen folder) + 12 + filename_length + 2 < 2 ^ 64 ->
  entrustash_io_create_filename true
    (snd (entrustash_get_default_dirname (true, folder) buffsize))
    filename filename_length =
  Some ((((c_str folder +:+ "\") +:+ dir_suffix) +:+ "\") +:+
        str_take (Z.to_nat (Z.min filename_length (Z.of_nat (strlen filename))))
          filename).
Proof.
  intros Hok Hlen Hfit.
  destruct (get_default_dirname_cases folder buffsize) as (_ & _ & Hval).
  rewrite (Hval Hok).
  assert (Hfix : c_str ((c_str folder +:+ "\") +:+ dir_suffix) =
                 (c_str folder +:+ "\") +:+ dir_suffix).
  { apply c_str_app; [|reflexivity].
    apply c_str_app; [apply c_str_idem | reflexivity]. }
  assert (Hstrlen : strlen ((c_str folder +:+ "\") +:+ dir_suffix) =
                    (strlen folder + 12)%nat).
  { assert (Hsep : c_str (c_str folder +:+ "\") = c_str folder +:+ "\")
      by (apply c_str_app; [apply c_str_idem | reflexivity]).
    rewrite <- Hsep, strlen_c_str_app, strlen_c_str_app. cbn. lia. }
  rewrite create_filename_value by (rewrite ?Hstrlen; lia).
  now rewrite Hfix.
Qed.

Lemma default_dirname_then_create_filename_witness :
  fst (entrustash_get_default_dirname (true, "C:\AppData"%string) 260) = true /\
  0 <= 4 /\
  Z.of_nat (strlen "C:\AppData") + 12 + 4 + 2 < 2 ^ 64 /\
  entrustash_io_create_filename true
    (snd (entrustash_get_default_dirname (true, "C:\AppData"%string) 260)) "full" 4 =
  Some "C:\AppData\Entrustash\\full"%string.
Proof.
  assert (H1 : fst (entrustash_get_default_dirname (true, "C:\AppData"%string) 260)
               = true) by (vm_compute; reflexivity).
  assert (H2 : 0 <= 4) by lia.
  assert (H3 : Z.of_nat (strlen "C:\AppData") + 12 + 4 + 2 < 2 ^ 64)
    by (vm_compute; reflexivity).
  repeat (split; [assumption|]).
  exact (default_dirname_then_create_filename "C:\AppData" "full" 260 4 H1 H2 H3).
Defined.

(** ** io_win32.c: the wrappers of the file system *)

(** [entrustash_mkdir] takes [EEXIST] for success.  It answers [true]
    when the directory exists afterwards, created or found, and also when
    a regular file bears the name: then no directory exists afterwards.
    It never removes a directory, adds none but [dirname], and adds none
    when it answers [false].  Files, streams and [*output_file] are not
    touched. *)
Theorem entrustash_mkdir_outcome (e : env) (dirname : string) (w : world) :
  let r := entrustash_mkdir e dirname w in
  (fst r = true -> dirname ∈ dirs (snd r) \/ is_Some (files w !! dirname)) /\
  (mkdir_err e = false -> dirname ∉ dirs w -> is_Some (files w !! dirname) ->
   fst r = true /\ dirname ∉ dirs (snd r)) /\
  (mkdir_err e = false -> files w !! dirname = None ->
   fst r = true /\ dirname ∈ dirs (snd r)) /\
  (fst r = false -> dirs (snd r) = dirs w) /\
  (dirname ∈ dirs w -> dirs (snd r) = dirs w) /\
  dirs w ⊆ dirs (snd r) /\
  dirs (snd r) ⊆ {[dirname]} ∪ dirs w /\
  files (snd r) = files w /\ streams (snd r) = streams w /\
  output_file (snd r) = output_file w.
Proof.
  intros r. subst r. unfold entrustash_mkdir, _mkdir.
  destruct (mkdir_err e);
    [|destruct (decide (dirname ∈ dirs w)) as [Hin|Hout];
      [|destruct (decide (is_Some (files w !! dirname))) as [Hfile|Hfile]]];
    cbn; repeat split; try reflexivity; try discriminate; try assumption;
    try tauto; try set_solver.
  match goal with
  | Hsome : is_Some ?x, Hnone : ?x = None |- _ =>
      rewrite Hnone in Hsome; destruct Hsome; discriminate
  end.
Qed.

(** ** io.c: what [entrustash_io_prepare] leaves alone *)

(** [entrustash_io_prepare] never reads or writes a file other than the
    DAG file, never removes a directory and creates none but [dirname]. *)
Theorem prepare_frame name_of e dirname seedhash file_size force w :
  let r := entrustash_io_prepare name_of e dirname seedhash file_size force w in
  (forall q, dag_path name_of e dirname seedhash <> Some q ->
             files (snd r) !! q = files w !! q) /\
  dirs w ⊆ dirs (snd r) /\
  dirs (snd r) ⊆ {[dirname]} ∪ dirs w.
Proof.
  intros r. subst r. enter e dirname w.
  match goal with
  | |- context [Build_world ?d _ _ _ _ _] =>
      assert (Hsub : dirs w ⊆ d /\ d ⊆ {[dirname]} ∪ dirs w)
        by (destruct (mkdir_err e);
            [|destruct (decide (is_Some (files w !! dirname)))]; set_solver);
      generalize dependent d
  end.
  intros d Hsub.
  destruct (dag_path name_of e dirname seedhash) as [p|] eqn:Hp.
  - run; (split; [|exact Hsub]); intros q Hq;
      rewrite ?lookup_insert_ne by congruence; reflexivity.
  - run; (split; [|exact Hsub]); intros q Hq; reflexivity.
Qed.

(** A file that fails the validation is left on disk as it is: status
    SIZE_MISMATCH means that [force_create] was false and a file was there,
    that all files are as before, and that the size was wrong, the magic
    number could not be read, or it was read and was wrong. *)
Theorem prepare_size_mismatch_inv name_of e dirname seedhash file_size force w :
  let r := entrustash_io_prepare name_of e dirname seedhash file_size force w in
  fst r = ENTRUSTASH_IO_MEMO_SIZE_MISMATCH ->
  force = false /\
  files (snd r) = files w /\
  exists p c,
    dag_path name_of e dirname seedhash = Some p /\
    files w !! p = Some c /\
    (file_size <> payload_size (wrap64 (Z.of_nat (length c))) \/
     read_err e = true \/
     (length c < 8)%nat \/
     decode_u64 (host_order e) (take 8 c) <> ENTRUSTASH_DAG_MAGIC_NUM).
Proof.
  intros r. subst r. enter e dirname w.
  destruct (dag_path name_of e dirname seedhash) as [p|] eqn:Hp;
    run; try discriminate; intros _.
  all: cbn [s_path] in *;
    change (Z.to_nat 0) with 0%nat in *; rewrite ?drop_0 in *;
    repeat match goal with
           | H : Some _ = Some _ |- _ => injection H as H; subst
           | H : files ?v !! ?q = Some _, H' : files ?v !! ?q = Some _ |- _ =>
               rewrite H in H'
           | H : negb _ = true |- _ => apply Bool.negb_true_iff in H
           | H : negb _ = false |- _ => apply Bool.negb_false_iff in H
           | H : Z.eqb _ _ = false |- _ => apply Z.eqb_neq in H
           end.
  all: split; [assumption|]; split; [reflexivity|]; eexists _, _;
    split; [reflexivity|]; split; [eassumption|].
  - left. assumption.
  - match goal with
    | H : _ || _ = true |- _ => apply Bool.orb_true_iff in H as [Hread|Hshort]
    end.
    + right. left. assumption.
    + right. right. left. apply Bool.negb_true_iff, Nat.eqb_neq in Hshort.
      rewrite length_take in Hshort. lia.
  - right. right. right. assumption.
Qed.

Lemma prepare_size_mismatch_inv_witness :
  fst (entrustash_io_prepare sample_name no_faults "dag" zero_seed 5 false
         (world_with good_dag)) = ENTRUSTASH_IO_MEMO_SIZE_MISMATCH /\
  files (snd (entrustash_io_prepare sample_name no_faults "dag" zero_seed 5 false
                (world_with good_dag))) = files (world_with good_dag).
Proof.
  assert (H : fst (entrustash_io_prepare sample_name no_faults "dag" zero_seed 5 false
                     (world_with good_dag)) = ENTRUSTASH_IO_MEMO_SIZE_MISMATCH)
    by (vm_compute; reflexivity).
  split; [exact H|].
  exact (proj1 (proj2 (prepare_size_mismatch_inv sample_name no_faults "dag" zero_seed
                         5 false (world_with good_dag) H))).
Defined.

(** ** io.c: what the statuses tell the caller *)

Lemma write_at_empty (pos : Z) (x : byte) :
  write_at [] pos x = repeat x00 (Z.to_nat pos) ++ [x].
Proof.
  unfold write_at. cbn [length].
  destruct (decide (Z.to_nat pos < 0)%nat) as [Hlt|_]; [lia|].
  now rewrite Nat.sub_0_r.
Qed.

Lemma prepare_mismatch_shape name_of e dirname seedhash file_size force w :
  let r := entrustash_io_prepare name_of e dirname seedhash file_size force w in
  fst r = ENTRUSTASH_IO_MEMO_MISMATCH ->
  exists p f,
    dag_path name_of e dirname seedhash = Some p /\
    (force = true \/ open_rb_err e = true \/ files w !! p = None) /\
    0 <= last_offset (model e) file_size /\
    files (snd r) =
      <[p := repeat x00 (Z.to_nat (last_offset (model e) file_size)) ++ [x0a]]>
        (files w) /\
    output_file (snd r) = Some f /\
    streams w !! f = None /\
    streams (snd r) !! f =
      Some {| s_path := p; s_pos := last_offset (model e) file_size + 1;
              s_buf := [] |}.
Proof.
  intros r. subst r. enter e dirname w.
  destruct (dag_path name_of e dirname seedhash) as [p|] eqn:Hp;
    run; try discriminate; intros _.
  all: repeat match goal with
              | H : negb _ = true |- _ => apply Bool.negb_true_iff in H
              | H : negb _ = false |- _ => apply Bool.negb_false_iff in H
              | H : _ || _ = false |- _ =>
                  apply Bool.orb_false_iff in H as [? ?]
              | H : Z.ltb _ _ = false |- _ => apply Z.ltb_ge in H
              end.
  all: exists p, (fresh (dom (streams w)));
    split; [reflexivity|]; split; [auto|]; split; [assumption|];
    split; [unfold commit; cbn [foldl fst snd]; now rewrite write_at_empty|];
    split; [reflexivity|];
    split; [apply lookup_fresh_stream | apply lookup_insert_eq].
Qed.

(** Status MISMATCH means that the DAG file has just been made anew: the
    path was built, no file was found there or none was looked for, the
    file now holds zeros up to a final newline at the offset sought, and
    [*output_file] is a new stream on it with nothing left to flush,
    positioned at the end of the file, not at its start. *)
Theorem prepare_mismatch_inv name_of e dirname seedhash file_size force w :
  let r := entrustash_io_prepare name_of e dirname seedhash file_size force w in
  fst r = ENTRUSTASH_IO_MEMO_MISMATCH ->
  exists p f,
    dag_path name_of e dirname seedhash = Some p /\
    (force = true \/ open_rb_err e = true \/ files w !! p = None) /\
    0 <= last_offset (model e) file_size /\
    files (snd r) =
      <[p := repeat x00 (Z.to_nat (last_offset (model e) file_size)) ++ [x0a]]>
        (files w) /\
    output_file (snd r) = Some f /\
    streams w !! f = None /\
    streams (snd r) !! f =
      Some {| s_path := p; s_pos := last_offset (model e) file_size + 1;
              s_buf := [] |}.
Proof.
  exact (prepare_mismatch_shape name_of e dirname seedhash file_size force w).
Qed.


Lemma prepare_mismatch_inv_witness :
  fst (entrustash_io_prepare sample_name no_faults "dag" zero_seed 4 true
         (world_with good_dag)) = ENTRUSTASH_IO_MEMO_MISMATCH /\
  exists f,
    output_file (snd (entrustash_io_prepare sample_name no_faults "dag" zero_seed 4
                        true (world_with good_dag))) = Some f /\
    streams (world_with good_dag) !! f = None.
Proof.
  assert (H : fst (entrustash_io_prepare sample_name no_faults "dag" zero_seed 4 true
                     (world_with good_dag)) = ENTRUSTASH_IO_MEMO_MISMATCH)
    by (vm_compute; reflexivity).
  split; [exact H|].
  destruct (prepare_mismatch_inv sample_name no_faults "dag" zero_seed 4 true
              (world_with good_dag) H)
    as (p & f & _ & _ & _ & _ & Hout & Hnew & _).
  exists f. split; assumption.
Defined.

(** Status FAIL is returned exactly when the path could not be allocated
    or one of these calls failed: creating the directory, querying the
    size, opening the file for writing, seeking, writing, flushing.  A
    failed open for reading or a failed read never gives FAIL by itself. *)
Theorem prepare_fail_iff name_of e dirname seedhash file_size force w :
  fst (entrustash_io_prepare name_of e dirname seedhash file_size force w) =
    ENTRUSTASH_IO_FAIL <->
  (mkdir_err e = false /\ dag_path name_of e dirname seedhash = None) \/
  exists c,
    c ∈ [CallMkdir; CallFileSize; CallFopen WB_PLUS; CallFseek; CallFputc;
         CallFflush] /\
    (c, false) ∈ prepare_calls name_of e dirname seedhash file_size force w.
Proof.
  enter e dirname w.
  destruct (dag_path name_of e dirname seedhash) as [p|] eqn:Hp;
    run; trace_of w.
  all: split; intros Hfail; try discriminate Hfail; try reflexivity.
  all: try (exfalso; destruct Hfail as [[_ Hnone]|(c & Hc & Hin)];
            [discriminate Hnone|];
            repeat (apply elem_of_cons in Hc as [->|Hc]; [absurd_member Hin|]);
            apply elem_of_nil in Hc; exact Hc).
  all: try (left; split; [first [assumption | now apply Bool.negb_true_iff] | reflexivity]).
  all: right.
  all: first
    [ exists CallMkdir; split; [set_solver | set_solver]
    | exists CallFileSize; split; [set_solver | set_solver]
    | exists (CallFopen WB_PLUS); split; [set_solver | set_solver]
    | exists CallFseek; split; [set_solver | set_solver]
    | exists CallFputc; split; [set_solver | set_solver]
    | exists CallFflush; split; [set_solver | set_solver] ].
Qed.

(** ** The magic number on disk *)

Lemma byte_of_value (x y : byte) :
  Z.of_N (Byte.to_N x) = Z.of_N (Byte.to_N y) -> x = y.
Proof.
  intros H. apply N2Z.inj in H.
  assert (Hx := Byte.of_to_N x). rewrite H, Byte.of_to_N in Hx.
  now injection Hx.
Qed.

(** Eight bytes that decode to the magic number are the magic bytes. *)
Lemma decode_le_magic_inv (bs : list byte) :
  length bs = 8%nat -> decode_le bs = ENTRUSTASH_DAG_MAGIC_NUM -> bs = magic_bytes.
Proof.
  intros Hlen Hdec.
  do 8 (destruct bs as [|? bs]; [discriminate Hlen|]).
  destruct bs; [|discriminate Hlen]. clear Hlen.
  unfold decode_le, ENTRUSTASH_DAG_MAGIC_NUM in Hdec. cbn [foldr] in Hdec.
  repeat match goal with
         | x : byte |- _ =>
             lazymatch goal with
             | _ : (Byte.to_N x <= 255)%N |- _ => fail
             | _ => pose proof (Byte.to_N_bounded x)
             end
         end.
  unfold magic_bytes.
  repeat f_equal; apply byte_of_value; cbn [Byte.to_N Z.of_N]; lia.
Qed.

Lemma decode_u64_magic_inv (o : byte_order) (bs : list byte) :
  length bs = 8%nat -> decode_u64 o bs = ENTRUSTASH_DAG_MAGIC_NUM ->
  bs = host_magic_bytes o.
Proof.
  intros Hlen Hdec. destruct o; cbn [decode_u64 host_magic_bytes] in *.
  - now apply decode_le_magic_inv.
  - rewrite <- (rev_involutive bs). f_equal.
    apply decode_le_magic_inv; [now rewrite length_rev | exact Hdec].
Qed.

(** ** io.c: one call after another *)


Lemma prepare_no_path name_of e dirname seedhash file_size force w :
  dag_path name_of e dirname seedhash = None ->
  fst (entrustash_io_prepare name_of e dirname seedhash file_size force w) =
    ENTRUSTASH_IO_FAIL.
Proof.
  intros Hp. enter e dirname w. rewrite Hp.
  destruct (negb (mkdir_err e)); reflexivity.
Qed.


(** A file that matched matches again once the caller has closed the
    stream it was handed: the call that reuses a file leaves it as it
    found it, closing the stream leaves the streams as they were before
    the call, and the same call then gives MATCH once more, the files
    being still those of the start. *)
Theorem prepare_match_stable name_of e dirname seedhash file_size w :
  let r1 := entrustash_io_prepare name_of e dirname seedhash file_size false w in
  fst r1 = ENTRUSTASH_IO_MEMO_MATCH ->
  exists f,
    output_file (snd r1) = Some f /\
    let w2 := fclose e f (snd r1) in
    let r2 := entrustash_io_prepare name_of e dirname seedhash file_size false w2 in
    streams w2 = streams w /\ files w2 = files w /\
    fst r2 = ENTRUSTASH_IO_MEMO_MATCH /\ files (snd r2) = files w.
Proof.
  intros r1 Hm. subst r1.
  destruct (dag_path name_of e dirname seedhash) as [p|] eqn:Hp;
    [|rewrite prepare_no_path in Hm by exact Hp; discriminate Hm].
  destruct (prepare_match_inv name_of e dirname seedhash file_size false w p Hp Hm)
    as (_ & Hmk & Ho & Hs & Hr & c & Hc & Hsz & Hlen & Hmagic & Hout & Hss & Hfiles).
  set (w1 := snd (entrustash_io_prepare name_of e dirname seedhash file_size false w))
    in *.
  exists (fresh (dom (streams w))). split; [exact Hout|]. cbv zeta.
  assert (Hclose : streams (fclose e (fresh (dom (streams w))) w1) = streams w /\
                   files (fclose e (fresh (dom (streams w))) w1) = files w).
  { unfold fclose. rewrite Hss, lookup_insert_eq. unfold write_out. reduce.
    rewrite ?Hss, delete_insert_fresh. split; [reflexivity | exact Hfiles]. }
  destruct Hclose as [Hss2 Hfiles2].
  split; [exact Hss2|]. split; [exact Hfiles2|].
  set (w2 := fclose e (fresh (dom (streams w))) w1) in *.
  rewrite <- Hfiles2 in Hc.
  assert (Hm2 : fst (entrustash_io_prepare name_of e dirname seedhash file_size false w2)
                = ENTRUSTASH_IO_MEMO_MATCH).
  { rewrite (prepare_validate _ _ _ _ _ _ _ _ Hmk Hp Hc Ho Hs).
    apply take8_length in Hlen.
    rewrite <- Hsz, Z.eqb_refl, Hr, Hlen, Hmagic, Z.eqb_refl. reflexivity. }
  split; [exact Hm2|].
  destruct (prepare_match_inv _ _ _ _ _ _ _ _ Hp Hm2)
    as (_ & _ & _ & _ & _ & c' & _ & _ & _ & _ & _ & _ & Hfiles3).
  now rewrite Hfiles3.
Qed.

Lemma prepare_match_stable_witness :
  fst (entrustash_io_prepare sample_name no_faults "dag" zero_seed 4 false
         (world_with good_dag)) = ENTRUSTASH_IO_MEMO_MATCH /\
  exists f,
    output_file (snd (entrustash_io_prepare sample_name no_faults "dag" zero_seed 4
                        false (world_with good_dag))) = Some f /\
    fst (entrustash_io_prepare sample_name no_faults "dag" zero_seed 4 false
           (fclose no_faults f
              (snd (entrustash_io_prepare sample_name no_faults "dag" zero_seed 4
                      false (world_with good_dag))))) = ENTRUSTASH_IO_MEMO_MATCH.
Proof.
  assert (H : fst (entrustash_io_prepare sample_name no_faults "dag" zero_seed 4 false
                     (world_with good_dag)) = ENTRUSTASH_IO_MEMO_MATCH)
    by (vm_compute; reflexivity).
  split; [exact H|].
  destruct (prepare_match_stable sample_name no_faults "dag" zero_seed 4
              (world_with good_dag) H) as (f & Hout & _ & _ & Hm2 & _).
  exists f. split; [exact Hout | exact Hm2].
Defined.



(** What the caller does after SIZE_MISMATCH works whatever is on disk:
    with [force_create = true] and no call failing, a size in the range of
    [long int] gives MISMATCH and a DAG file of [file_size + 8] bytes, all
    zeros but the last, in place of any file that was there. *)
Theorem prepare_force_create_succeeds name_of e dirname seedhash file_size w p :
  dag_path name_of e dirname seedhash = Some p ->
  mkdir_err e = false -> open_wb_err e = false -> seek_err e = false ->
  putc_err e = false -> flush_err e = false ->
  0 <= file_size ->
  file_size + ENTRUSTASH_DAG_MAGIC_NUM_SIZE - 1 < 2 ^ (long_bits (model e) - 1) ->
  let r := entrustash_io_prepare name_of e dirname seedhash file_size true w in
  fst r = ENTRUSTASH_IO_MEMO_MISMATCH /\
  files (snd r) =
    <[p := repeat x00 (Z.to_nat (file_size + 7)) ++ [x0a]]> (files w) /\
  Z.of_nat (length (repeat x00 (Z.to_nat (file_size + 7)) ++ [x0a])) =
    file_size + ENTRUSTASH_DAG_MAGIC_NUM_SIZE.
Proof.
  intros Hp Hmk Hwb Hseek Hputc Hflush Hfs Hlong r. subst r.
  assert (Hoff : last_offset (model e) file_size = file_size + 7)
    by (apply last_offset_exact; assumption).
  assert (Hpos : (last_offset (model e) file_size <? 0) = false)
    by (apply Z.ltb_ge; lia).
  enter e dirname w. rewrite Hmk, Hp. prims.
  repeat (progress (norm; rewrite ?Hwb, ?Hseek, ?Hputc, ?Hflush, ?Hpos;
                    cbn [orb])).
  split; [reflexivity|]. split.
  - unfold commit. cbn [foldl fst snd]. now rewrite write_at_empty, Hoff.
  - rewrite length_app, repeat_length. cbn [length].
    unfold ENTRUSTASH_DAG_MAGIC_NUM_SIZE. lia.
Qed.

Lemma prepare_force_create_succeeds_witness :
  dag_path sample_name no_faults "dag" zero_seed = Some sample_path /\
  0 <= 4 /\
  4 + ENTRUSTASH_DAG_MAGIC_NUM_SIZE - 1 < 2 ^ (long_bits (model no_faults) - 1) /\
  fst (entrustash_io_prepare sample_name no_faults "dag" zero_seed 4 true
         (world_with good_dag)) = ENTRUSTASH_IO_MEMO_MISMATCH.
Proof.
  assert (H1 : dag_path sample_name no_faults "dag" zero_seed = Some sample_path)
    by (vm_compute; reflexivity).
  assert (H2 : 0 <= 4) by lia.
  assert (H3 : 4 + ENTRUSTASH_DAG_MAGIC_NUM_SIZE - 1 <
               2 ^ (long_bits (model no_faults) - 1)) by reflexivity.
  repeat (split; [assumption|]).
  apply (prepare_force_create_succeeds sample_name no_faults "dag" zero_seed 4
           (world_with good_dag) sample_path H1); first [reflexivity | assumption].
Defined.

(** ** io.c: the layout of a file that is reused *)

(** MATCH means that the DAG file is laid out as the format says: the 8
    bytes of the magic number in the byte order of the host, then exactly
    [file_size] bytes.  Conversely such a file gives MATCH unless a call
    fails. *)
Theorem prepare_match_layout name_of e dirname seedhash file_size w p :
  dag_path name_of e dirname seedhash = Some p ->
  (forall c, files w !! p = Some c -> Z.of_nat (length c) < 2 ^ 64) ->
  let r := entrustash_io_prepare name_of e dirname seedhash file_size false w in
  (fst r = ENTRUSTASH_IO_MEMO_MATCH ->
   exists payload,
     files w !! p = Some (host_magic_bytes (host_order e) ++ payload) /\
     Z.of_nat (length payload) = file_size) /\
  (forall payload,
     files w !! p = Some (host_magic_bytes (host_order e) ++ payload) ->
     Z.of_nat (length payload) = file_size ->
     mkdir_err e = false -> open_rb_err e = false -> stat_err e = false ->
     read_err e = false ->
     fst r = ENTRUSTASH_IO_MEMO_MATCH).
Proof.
  intros Hp Hrepr r. subst r. split.
  - intros Hm.
    destruct (prepare_match_inv _ _ _ _ _ _ _ _ Hp Hm)
      as (_ & _ & _ & _ & _ & c & Hc & Hsz & Hlen & Hmagic & _).
    exists (drop 8 c).
    assert (Hhead : take 8 c = host_magic_bytes (host_order e)).
    { apply decode_u64_magic_inv; [rewrite length_take; lia | exact Hmagic]. }
    split.
    + rewrite <- Hhead, take_drop. exact Hc.
    + rewrite length_drop, Hsz, payload_size_exact by (specialize (Hrepr c Hc); lia).
      lia.
  - intros payload Hc Hlen Hmk Ho Hs Hr.
    assert (Hm8 : length (host_magic_bytes (host_order e)) = 8%nat)
      by (destruct (host_order e); reflexivity).
    assert (Hhead : take 8 (host_magic_bytes (host_order e) ++ payload) =
                    host_magic_bytes (host_order e))
      by (rewrite <- Hm8; apply take_app_length).
    rewrite (prepare_validate _ _ _ _ _ _ _ _ Hmk Hp Hc Ho Hs).
    specialize (Hrepr _ Hc). rewrite length_app, Hm8 in Hrepr |- *.
    rewrite payload_size_exact by lia.
    replace (Z.of_nat (8 + length payload) - 8) with file_size by lia.
    rewrite Z.eqb_refl, Hr, Hhead, Hm8.
    destruct (host_order e); reflexivity.
Qed.

Lemma prepare_match_layout_witness :
  dag_path sample_name no_faults "dag" zero_seed = Some sample_path /\
  (forall c, files (world_with good_dag) !! sample_path = Some c ->
             Z.of_nat (length c) < 2 ^ 64) /\
  fst (entrustash_io_prepare sample_name no_faults "dag" zero_seed 4 false
         (world_with good_dag)) = ENTRUSTASH_IO_MEMO_MATCH.
Proof.
  assert (H1 : dag_path sample_name no_faults "dag" zero_seed = Some sample_path)
    by (vm_compute; reflexivity).
  assert (H2 : forall c, files (world_with good_dag) !! sample_path = Some c ->
                         Z.of_nat (length c) < 2 ^ 64).
  { intros c Hc. vm_compute in Hc. injection Hc as <-. vm_compute. reflexivity. }
  split; [exact H1|]. split; [exact H2|].
  apply (proj2 (prepare_match_layout sample_name no_faults "dag" zero_seed 4
                  (world_with good_dag) sample_path H1 H2) [x01; x02; x03; x04]);
    reflexivity.
Defined.

(** ** io.c: sizes beyond [long int] *)

Lemma last_offset_low_bits (m : data_model) (file_size : Z) :
  0 <= file_size -> file_size + 7 < 2 ^ 64 ->
  last_offset m file_size =
    to_long (long_bits m) (file_size + 7).
Proof.
  intros H0 H1. unfold last_offset, ENTRUSTASH_DAG_MAGIC_NUM_SIZE. f_equal.
  unfold wrap64. rewrite Zminus_mod_idemp_l.
  replace (file_size + 8 - 1) with (file_size + 7) by lia.
  apply Z.mod_small. lia.
Qed.

(** The offset of the last byte is cast to [long int].  When
    [file_size + 7] is beyond its positive range and within its width, the
    offset is negative, [fseek] refuses it and the status is FAIL; the file
    that mode ["wb+"] has truncated by then stays empty, and the stream is
    closed. *)
Theorem prepare_offset_beyond_long name_of e dirname seedhash file_size w p :
  dag_path name_of e dirname seedhash = Some p ->
  mkdir_err e = false -> open_wb_err e = false ->
  2 ^ (long_bits (model e) - 1) <= file_size + 7 < 2 ^ long_bits (model e) ->
  let r := entrustash_io_prepare name_of e dirname seedhash file_size true w in
  last_offset (model e) file_size < 0 /\
  fst r = ENTRUSTASH_IO_FAIL /\
  files (snd r) = <[p := []]> (files w) /\
  streams (snd r) = streams w /\
  output_file (snd r) = output_file w.
Proof.
  intros Hp Hmk Hwb Hrange r. subst r.
  assert (Hbits : (7 < 2 ^ (long_bits (model e) - 1)) /\
                  (2 ^ long_bits (model e) = 2 * 2 ^ (long_bits (model e) - 1)) /\
                  (2 ^ long_bits (model e) <= 2 ^ 64))
    by (destruct (model e); cbn; lia).
  assert (Hneg : last_offset (model e) file_size < 0).
  { rewrite last_offset_low_bits by lia. unfold to_long. cbv zeta.
    rewrite (Z.mod_small (file_size + 7)) by lia.
    destruct (Z.ltb_spec (file_size + 7) (2 ^ (long_bits (model e) - 1))); lia. }
  split; [exact Hneg|].
  assert (Hlt : (last_offset (model e) file_size <? 0) = true)
    by (apply Z.ltb_lt; exact Hneg).
  enter e dirname w. rewrite Hmk, Hp. prims.
  repeat (progress (norm; rewrite ?Hwb, ?Hlt, ?Bool.orb_true_r)).
  repeat split.
Qed.

(** Two GiB are too much where [long int] has 32 bits. *)
Lemma prepare_offset_beyond_long_witness :
  dag_path sample_name no_faults "dag" zero_seed = Some sample_path /\
  2 ^ (long_bits (model no_faults) - 1) <= 2 ^ 31 + 7 < 2 ^ long_bits (model no_faults) /\
  fst (entrustash_io_prepare sample_name no_faults "dag" zero_seed (2 ^ 31) true
         (world_with good_dag)) = ENTRUSTASH_IO_FAIL /\
  files (snd (entrustash_io_prepare sample_name no_faults "dag" zero_seed (2 ^ 31) true
                (world_with good_dag))) !! sample_path = Some [].
Proof.
  assert (H1 : dag_path sample_name no_faults "dag" zero_seed = Some sample_path)
    by (vm_compute; reflexivity).
  assert (H2 : 2 ^ (long_bits (model no_faults) - 1) <= 2 ^ 31 + 7
               < 2 ^ long_bits (model no_faults)) by (cbn; lia).
  destruct (prepare_offset_beyond_long sample_name no_faults "dag" zero_seed (2 ^ 31)
              (world_with good_dag) sample_path H1 eq_refl eq_refl H2)
    as (_ & Hfail & Hfiles & _).
  split; [exact H1|]. split; [exact H2|]. split; [exact Hfail|].
  rewrite Hfiles. apply lookup_insert_eq.
Defined.

(** Where [long int] has 32 bits the cast drops the high bits of the
    offset: for [file_size + 7] from [2^32] up to [2^32 + 2^31] the call
    succeeds with status MISMATCH on a file that is [2^32] bytes shorter
    than [file_size + 8]. *)
Theorem prepare_offset_truncated_llp64 name_of e dirname seedhash file_size w p :
  model e = LLP64 ->
  dag_path name_of e dirname seedhash = Some p ->
  mkdir_err e = false -> open_wb_err e = false -> seek_err e = false ->
  putc_err e = false -> flush_err e = false ->
  2 ^ 32 <= file_size + 7 < 2 ^ 32 + 2 ^ 31 ->
  let r := entrustash_io_prepare name_of e dirname seedhash file_size true w in
  fst r = ENTRUSTASH_IO_MEMO_MISMATCH /\
  exists c, files (snd r) !! p = Some c /\
            Z.of_nat (length c) = file_size + ENTRUSTASH_DAG_MAGIC_NUM_SIZE - 2 ^ 32.
Proof.
  intros Hm Hp Hmk Hwb Hseek Hputc Hflush Hrange r. subst r.
  assert (Hoff : last_offset (model e) file_size = file_size + 7 - 2 ^ 32).
  { rewrite last_offset_low_bits, Hm by lia. unfold to_long. cbn [long_bits]. cbv zeta.
    assert (Hmod : (file_size + 7) mod 2 ^ 32 = file_size + 7 - 2 ^ 32)
      by (symmetry; apply (Z.mod_unique_pos _ _ 1); lia).
    rewrite Hmod.
    destruct (Z.ltb_spec (file_size + 7 - 2 ^ 32) (2 ^ (32 - 1))); [reflexivity|lia]. }
  assert (Hpos : (last_offset (model e) file_size <? 0) = false)
    by (apply Z.ltb_ge; lia).
  enter e dirname w. rewrite Hmk, Hp. prims.
  repeat (progress (norm; rewrite ?Hwb, ?Hseek, ?Hputc, ?Hflush, ?Hpos;
                    cbn [orb])).
  split; [reflexivity|]. eexists. split; [reflexivity|].
  unfold commit. cbn [foldl fst snd].
  rewrite write_at_empty_length, Hoff by lia.
  unfold ENTRUSTASH_DAG_MAGIC_NUM_SIZE. lia.
Qed.

Lemma prepare_offset_truncated_llp64_witness :
  model no_faults = LLP64 /\
  dag_path sample_name no_faults "dag" zero_seed = Some sample_path /\
  2 ^ 32 <= 2 ^ 32 + 7 < 2 ^ 32 + 2 ^ 31 /\
  fst (entrustash_io_prepare sample_name no_faults "dag" zero_seed (2 ^ 32) true
         empty_world) = ENTRUSTASH_IO_MEMO_MISMATCH /\
  files (snd (entrustash_io_prepare sample_name no_faults "dag" zero_seed (2 ^ 32) true
                empty_world)) !! sample_path =
    Some [x00; x00; x00; x00; x00; x00; x00; x0a].
Proof.
  assert (H1 : dag_path sample_name no_faults "dag" zero_seed = Some sample_path)
    by (vm_compute; reflexivity).
  assert (H2 : 2 ^ 32 <= 2 ^ 32 + 7 < 2 ^ 32 + 2 ^ 31) by lia.
  split; [reflexivity|]. split; [exact H1|]. split; [exact H2|].
  split.
  - apply (prepare_offset_truncated_llp64 sample_name no_faults "dag" zero_seed (2 ^ 32)
             empty_world sample_path); first [reflexivity | assumption].
  - vm_compute. reflexivity.
Defined.
